(** * Tollbooth proxy addon: interception control layer

    A shallow embedding of [src/proxy/addon.py] (class
    [TrafficInspectorAddon]) and the properties its specification states.

    Conventions of the embedding:
    - Python [dict]s keyed by flow id are [gmap string _]; the set of
      streaming flows is a [gset string].
    - [asyncio.Event] objects are references (natural numbers) into a
      store of flags, because the registry and the suspended hook share
      the same object.
    - A hook that suspends on [asyncio.wait_for] is split at that await
      into the part that runs before it and the part that runs after it;
      the addon state the second part finds is whatever the commands
      processed in between have left.
    - [send_to_backend] calls are recorded as effects, in order, and so
      are the log lines that tell which path was taken (warnings, errors,
      the outcome of a wait, a drop); log lines that only echo values are
      left out.
    - The headers of a request or response are the proxy engine's
      container, a list of fields; the addon reads and writes them
      through the engine's interface only, which the embedding takes as
      given together with the one law it relies on.
    - [time.time()] is the clock value handed to the hook. *)

From Stdlib Require Import ZArith NArith Ascii String.
From Stdlib.Strings Require Import Byte.
From stdpp Require Import gmap strings list fin_maps.

Local Open Scope string_scope.
Local Open Scope list_scope.

(** ** Python string containment ([needle in hay]) *)

Fixpoint str_contains (needle hay : string) : bool :=
  String.prefix needle hay ||
  match hay with
  | EmptyString => false
  | String _ rest => str_contains needle rest
  end.

(** ** Module constants *)

Definition LLM_API_HOSTS : list string :=
  [ "api.anthropic.com";
    "api.openai.com";
    "generativelanguage.googleapis.com";
    "chatgpt.com" ].

(** [any(h in host for h in LLM_API_HOSTS)] *)
Definition any_llm_host (host : string) : bool :=
  existsb (fun h => str_contains h host) LLM_API_HOSTS.

(** ** Decimal rendering of a length (the [{len(content)}] of an f-string) *)

Definition digit_char (d : N) : ascii :=
  ascii_of_N (48 + d).

Fixpoint dec_go (fuel : nat) (n : N) (acc : string) : string :=
  match fuel with
  | O => acc
  | S fuel' =>
      let acc' := String (digit_char (n mod 10)) acc in
      if (n / 10 =? 0)%N then acc' else dec_go fuel' (n / 10)%N acc'
  end.

Definition str_of_N (n : N) : string :=
  dec_go (S (N.size_nat n)) n "".

Definition str_of_len {A} (l : list A) : string :=
  str_of_N (N.of_nat (length l)).

(** ** What the addon takes from its surroundings

    The environment variable [MAX_BODY_SIZE]; [bytes.decode('utf-8',
    errors='replace')], where [None] stands for the exception the source
    guards against; [str.encode]; [urllib.parse.urlparse]; the outbound
    HTTP client of the replay path; and the message interface of the proxy
    engine: the header container of a request or response (its fields in
    order, names as spelled) with [headers[k] = v], [headers.get(k)] and
    [dict(headers)], and [set_text], which computes the new body, and the
    headers it adjusts along with it, from the text and the headers.
    The engine compares header names in its own way ([same_name], without
    regard to case); of the header container the one thing assumed is
    that assignment and lookup go by name in that comparison. *)

Definition bytes := list Byte.byte.

Definition header_fields := list (string * string).

Record parsed_url := ParsedUrl {
  pu_host : string;
  pu_port : Z;
  pu_path : string
}.

Record client_response := ClientResponse {
  cr_status_code : Z;
  cr_reason_phrase : string;
  cr_headers : gmap string string;
  cr_text : string
}.

Class Environment := {
  MAX_BODY_SIZE : Z;
  decode_utf8 : bytes -> option string;
  encode_text : string -> bytes;
  (* host, port and path as lines 213-218 compute them; inr is the
     exception text of a failed parse *)
  urlparse : string -> parsed_url + string;
  (* httpx: method, url, headers, content; inr is str(e) of a failure *)
  client_request :
    string -> string -> gmap string string -> option bytes ->
    client_response + string;
  same_name : string -> string -> bool;
  headers_set : string -> string -> header_fields -> header_fields;
  headers_get : string -> header_fields -> option string;
  headers_dict : header_fields -> gmap string string;
  message_set_text : string -> header_fields -> header_fields * option bytes;
  same_name_refl : forall k, same_name k k = true;
  headers_get_set : forall k k' v h,
    headers_get k' (headers_set k v h)
    = if same_name k k' then Some v else headers_get k' h
}.

(** ** Transactions as the proxy engine hands them over *)

Record http_request := HttpRequest {
  rq_method : string;
  rq_url : string;
  rq_host : string;
  rq_port : Z;
  rq_path : string;
  rq_headers : header_fields;
  rq_content : option bytes
}.

Record http_response := HttpResponse {
  rs_status_code : Z;
  rs_reason : string;
  rs_headers : header_fields;
  rs_content : option bytes
}.

Record HTTPFlow := Flow {
  flow_id : string;
  flow_request : http_request;
  flow_response : option http_response;
  flow_killed : bool
}.

(** The engine's mutation interface, as the hooks use it: [set_text],
    [headers[k] = v], [status_code = c] and [kill]. *)

Definition set_request_text `{Environment} (t : string) (r : http_request) : http_request :=
  HttpRequest (rq_method r) (rq_url r) (rq_host r) (rq_port r) (rq_path r)
              (message_set_text t (rq_headers r)).1
              (message_set_text t (rq_headers r)).2.

Definition set_request_header `{Environment} (k v : string) (r : http_request)
    : http_request :=
  HttpRequest (rq_method r) (rq_url r) (rq_host r) (rq_port r) (rq_path r)
              (headers_set k v (rq_headers r)) (rq_content r).

Definition set_response_text `{Environment} (t : string) (r : http_response)
    : http_response :=
  HttpResponse (rs_status_code r) (rs_reason r)
               (message_set_text t (rs_headers r)).1
               (message_set_text t (rs_headers r)).2.

Definition set_response_status (c : Z) (r : http_response) : http_response :=
  HttpResponse c (rs_reason r) (rs_headers r) (rs_content r).

Definition set_response_header `{Environment} (k v : string) (r : http_response)
    : http_response :=
  HttpResponse (rs_status_code r) (rs_reason r) (headers_set k v (rs_headers r))
               (rs_content r).

Definition with_request (q : http_request) (f : HTTPFlow) : HTTPFlow :=
  Flow (flow_id f) q (flow_response f) (flow_killed f).

Definition with_response (r : http_response) (f : HTTPFlow) : HTTPFlow :=
  Flow (flow_id f) (flow_request f) (Some r) (flow_killed f).

Definition kill (f : HTTPFlow) : HTTPFlow :=
  Flow (flow_id f) (flow_request f) (flow_response f) true.

(** ** Snapshots and outbound messages (the JSON objects sent to the backend) *)

Record request_dict := RequestDict {
  rd_method : string;
  rd_url : string;
  rd_host : string;
  rd_port : Z;
  rd_path : string;
  rd_headers : gmap string string;
  rd_content : option string
}.

Record response_dict := ResponseDict {
  sd_status_code : Z;
  sd_reason : string;
  sd_headers : gmap string string;
  sd_content : option string
}.

Record replay_source := ReplaySource {
  src_variant_id : option string;
  src_parent_flow_id : option string
}.

(** The dictionary built by [flow_to_dict] (and by hand on the replay
    path); optional keys are options, flag keys are booleans. *)
Record flow_dict := FlowDict {
  fd_flow_id : string;
  fd_timestamp : nat;
  fd_request : request_dict;
  fd_is_llm_api : bool;
  fd_response : option response_dict;
  fd_stream_complete : bool;
  fd_original_response : option response_dict;
  fd_response_modified : bool;
  fd_replay_source : option replay_source
}.

Inductive message :=
  | MsgRequest (data : flow_dict)
  | MsgInterceptRequest (data : flow_dict)
  | MsgRequestModified (fid : string) (original_request modified_request : request_dict)
  | MsgInterceptResponse (data : flow_dict)
  | MsgResponse (data : flow_dict)
  | MsgReplayResponse (replay_id variant_id fid : option string) (error : string)
  | MsgReplayComplete (replay_id variant_id : option string) (fid : string) (success : bool).

(** ** Inbound commands

    A decoded command object. A field read with [data.get] is an option:
    [None] is the absent key, and the default of the source is applied
    where the field is read. The values of the fields have the types the
    backend protocol gives them: ids and modes are strings. *)

Record modifications := Mods {
  m_drop : option bool;
  m_body : option string;
  m_headers : option (list (string * string));
  m_status_code : option Z
}.

Definition no_modifications : modifications := Mods None None None None.

Record replay_params := ReplayParams {
  rp_method : option string;
  rp_url : option string;
  rp_headers : option (gmap string string);
  rp_body : option string
}.

Record replay_command := ReplayCommand {
  rc_replay_id : option string;
  rc_variant_id : option string;
  rc_request : option replay_params;
  rc_intercept_response : option bool;
  rc_parent_flow_id : option string
}.

Inductive command :=
  | CmdSetInterceptMode (mode : option string)
  | CmdSetRulesEnabled (enabled : option bool)
  | CmdForward (fid : option string)
  | CmdForwardModified (fid : option string) (mods : option modifications)
  | CmdDrop (fid : option string)
  | CmdForwardResponse (fid : option string)
  | CmdForwardResponseModified (fid : option string) (mods : option modifications)
  | CmdReplayRequest (data : replay_command)
  | CmdOther (cmd : option string).

(** ** Effects *)

Inductive effect :=
  | Send (m : message)
  | LogInfo (text : string)
  | LogWarn (text : string)
  | LogError (text : string)
  | HttpCall (method url : string) (headers : gmap string string) (content : option bytes)
  | CreateTask (data : replay_command).

Definition sent (e : effect) : option message :=
  match e with Send m => Some m | _ => None end.

Definition sent_messages (es : list effect) : list message :=
  omap sent es.

Definition is_http_call (e : effect) : bool :=
  match e with HttpCall _ _ _ _ => true | _ => false end.

Definition http_calls (es : list effect) : list effect :=
  List.filter is_http_call es.

(** ** The addon object

    The fields of [__init__] that the hooks and the command handler use
    (the socket and its lock belong to the link, see [send_to_backend]),
    together with the [asyncio.Event] objects created so far: an event is
    a number, [event_flags] holds the events that have been set, and
    [event_count] is the next fresh one. *)

Record TrafficInspectorAddon := Addon {
  intercept_mode : string;
  rules_enabled : bool;
  pending_flows : gmap string nat;
  flow_modifications : gmap string modifications;
  response_pending : gmap string nat;
  response_modifications : gmap string modifications;
  streaming_flows : gset string;
  event_flags : gset nat;
  event_count : nat
}.

Definition init : TrafficInspectorAddon :=
  Addon "passthrough" false ∅ ∅ ∅ ∅ ∅ ∅ 0.

Definition set_intercept_mode (v : string) (s : TrafficInspectorAddon) :=
  Addon v (rules_enabled s) (pending_flows s) (flow_modifications s)
        (response_pending s) (response_modifications s) (streaming_flows s)
        (event_flags s) (event_count s).

Definition set_rules_enabled (v : bool) (s : TrafficInspectorAddon) :=
  Addon (intercept_mode s) v (pending_flows s) (flow_modifications s)
        (response_pending s) (response_modifications s) (streaming_flows s)
        (event_flags s) (event_count s).

Definition set_pending_flows (v : gmap string nat) (s : TrafficInspectorAddon) :=
  Addon (intercept_mode s) (rules_enabled s) v (flow_modifications s)
        (response_pending s) (response_modifications s) (streaming_flows s)
        (event_flags s) (event_count s).

Definition set_flow_modifications (v : gmap string modifications) (s : TrafficInspectorAddon) :=
  Addon (intercept_mode s) (rules_enabled s) (pending_flows s) v
        (response_pending s) (response_modifications s) (streaming_flows s)
        (event_flags s) (event_count s).

Definition set_response_pending (v : gmap string nat) (s : TrafficInspectorAddon) :=
  Addon (intercept_mode s) (rules_enabled s) (pending_flows s) (flow_modifications s)
        v (response_modifications s) (streaming_flows s)
        (event_flags s) (event_count s).

Definition set_response_modifications (v : gmap string modifications) (s : TrafficInspectorAddon) :=
  Addon (intercept_mode s) (rules_enabled s) (pending_flows s) (flow_modifications s)
        (response_pending s) v (streaming_flows s)
        (event_flags s) (event_count s).

Definition set_streaming_flows (v : gset string) (s : TrafficInspectorAddon) :=
  Addon (intercept_mode s) (rules_enabled s) (pending_flows s) (flow_modifications s)
        (response_pending s) (response_modifications s) v
        (event_flags s) (event_count s).

(** [event.set()] *)
Definition event_set (e : nat) (s : TrafficInspectorAddon) :=
  Addon (intercept_mode s) (rules_enabled s) (pending_flows s) (flow_modifications s)
        (response_pending s) (response_modifications s) (streaming_flows s)
        ({[e]} ∪ event_flags s) (event_count s).

Definition event_is_set (e : nat) (s : TrafficInspectorAddon) : bool :=
  bool_decide (e ∈ event_flags s).

(** ** A state-and-output monad for the methods of the addon *)

Definition M (A : Type) : Type :=
  TrafficInspectorAddon -> A * TrafficInspectorAddon * list effect.

#[export] Instance M_ret : MRet M := fun A x s => (x, s, []).

#[export] Instance M_bind : MBind M := fun A B k m s =>
  let r1 := m s in
  let r2 := k r1.1.1 r1.1.2 in
  (r2.1.1, r2.1.2, r1.2 ++ r2.2).

Definition get : M TrafficInspectorAddon := fun s => (s, s, []).
Definition modify (f : TrafficInspectorAddon -> TrafficInspectorAddon) : M unit :=
  fun s => (tt, f s, []).
Definition emit (e : effect) : M unit := fun s => (tt, s, [e]).

Definition value_of {A} (r : A * TrafficInspectorAddon * list effect) : A := r.1.1.
Definition state_of {A} (r : A * TrafficInspectorAddon * list effect) := r.1.2.
Definition effects_of {A} (r : A * TrafficInspectorAddon * list effect) := r.2.

(** [asyncio.Event()]: a fresh, unset event *)
Definition new_event : M nat := fun s =>
  (event_count s,
   Addon (intercept_mode s) (rules_enabled s) (pending_flows s) (flow_modifications s)
         (response_pending s) (response_modifications s) (streaming_flows s)
         (event_flags s) (S (event_count s)),
   []).

Section Addon.
Context `{Environment}.

(** ** Mode controller and snapshot helpers *)

Definition should_intercept (s : TrafficInspectorAddon) (host : string) : bool :=
  if String.eqb (intercept_mode s) "passthrough" then false
  else if String.eqb (intercept_mode s) "intercept_llm" then any_llm_host host
  else if String.eqb (intercept_mode s) "intercept_all" then true
  else false.

Definition should_apply_rules (s : TrafficInspectorAddon) : bool :=
  rules_enabled s.

Definition is_llm_api (host : string) : bool :=
  any_llm_host host.

Definition binary_placeholder (content : bytes) : string :=
  "[Binary content, " +:+ str_of_len content +:+ " bytes]".

Definition truncated_placeholder (content : bytes) : string :=
  "[Content truncated, " +:+ str_of_len content +:+ " bytes total]".

Definition decode_or_placeholder (content : bytes) : string :=
  match decode_utf8 content with
  | Some text => text
  | None => binary_placeholder content
  end.

Definition _get_body_content (content : option bytes) (is_llm : bool) : option string :=
  match content with
  | None => None
  | Some [] => None
  | Some c =>
      if is_llm then Some (decode_or_placeholder c)
      else if (MAX_BODY_SIZE <? Z.of_nat (length c))%Z
           then Some (truncated_placeholder c)
           else Some (decode_or_placeholder c)
  end.

Definition request_to_dict (r : http_request) (is_llm : bool) : request_dict :=
  RequestDict (rq_method r) (rq_url r) (rq_host r) (rq_port r) (rq_path r)
              (headers_dict (rq_headers r)) (_get_body_content (rq_content r) is_llm).

Definition response_to_dict (r : http_response) (is_llm : bool) : response_dict :=
  ResponseDict (rs_status_code r) (rs_reason r) (headers_dict (rs_headers r))
               (_get_body_content (rs_content r) is_llm).

Definition flow_to_dict (now : nat) (flow : HTTPFlow) (include_response : bool) : flow_dict :=
  let is_llm := is_llm_api (rq_host (flow_request flow)) in
  FlowDict (flow_id flow) now
           (request_to_dict (flow_request flow) is_llm)
           is_llm
           (if include_response
            then (fun r => response_to_dict r is_llm) <$> flow_response flow
            else None)
           false None false None.

(** ** Link manager, as far as the hooks see it

    [send_to_backend] never raises: a failed connect or write is caught
    and logged inside it. The model records the call; whether the frame
    reaches the operator is a matter of the transport. *)

Definition send_to_backend (m : message) : M unit := emit (Send m).

(** ** Command handler *)

Definition signal (registry : gmap string nat) (fid : option string) : option nat :=
  fid ≫= fun i => registry !! i.

Definition store_for (fid : option string) (mods : modifications)
    (m : gmap string modifications) : gmap string modifications :=
  match fid with
  | Some i => <[i := mods]> m
  | None => m
  end.

Definition _process_backend_command (data : command) : M unit :=
  match data with
  | CmdSetInterceptMode mode =>
      modify (set_intercept_mode (default "passthrough" mode))
  | CmdSetRulesEnabled enabled =>
      modify (set_rules_enabled (default false enabled))
  | CmdForward fid =>
      s ← get;
      match signal (pending_flows s) fid with
      | Some e => modify (event_set e)
      | None =>
          match signal (response_pending s) fid with
          | Some e => modify (event_set e)
          | None => mret tt
          end
      end
  | CmdForwardModified fid mods =>
      let modifications := default no_modifications mods in
      s ← get;
      match signal (pending_flows s) fid with
      | Some e =>
          modify (fun s => set_flow_modifications
                             (store_for fid modifications (flow_modifications s)) s);;
          modify (event_set e)
      | None =>
          match signal (response_pending s) fid with
          | Some e =>
              modify (fun s => set_response_modifications
                                 (store_for fid modifications (response_modifications s)) s);;
              modify (event_set e)
          | None => mret tt
          end
      end
  | CmdDrop fid =>
      s ← get;
      match signal (pending_flows s) fid with
      | Some e =>
          modify (fun s => set_flow_modifications
                             (store_for fid (Mods (Some true) None None None)
                                        (flow_modifications s)) s);;
          modify (event_set e)
      | None => mret tt
      end
  | CmdForwardResponse fid =>
      s ← get;
      match signal (response_pending s) fid with
      | Some e => modify (event_set e)
      | None => mret tt
      end
  | CmdForwardResponseModified fid mods =>
      let modifications := default no_modifications mods in
      s ← get;
      match signal (response_pending s) fid with
      | Some e =>
          modify (fun s => set_response_modifications
                             (store_for fid modifications (response_modifications s)) s);;
          modify (event_set e)
      | None => emit (LogWarn "not in response_pending, modifications may be lost")
      end
  | CmdReplayRequest d => emit (CreateTask d)
  | CmdOther _ => mret tt
  end.

(** ** Interception coordinator: the request hook

    [await asyncio.wait_for(event.wait(), timeout=300)] is where the hook
    suspends; how the wait ended is all the rest of the hook learns. *)

Inductive wait_outcome := Released | TimedOut.

Definition INTERCEPT_TIMEOUT : nat := 300.

Definition pop {V} (k : string) (m : gmap string V) : gmap string V := delete k m.

Definition update_request_headers (items : list (string * string)) (r : http_request)
    : http_request :=
  foldl (fun r kv => set_request_header kv.1 kv.2 r) r items.

(** Lines 431-457: up to the wait, or to the end of the hook when the
    request is not intercepted. The result is [flow_data] and the event
    the hook then waits on. *)
Definition request_until_wait (now : nat) (flow : HTTPFlow) : M (flow_dict * option nat) :=
  let flow_data := flow_to_dict now flow false in
  send_to_backend (MsgRequest flow_data);;
  s ← get;
  let should_intercept := should_intercept s (rq_host (flow_request flow)) in
  let should_apply := should_apply_rules s in
  if should_intercept || should_apply then
    event ← new_event;
    modify (fun s => set_pending_flows (<[flow_id flow := event]> (pending_flows s)) s);;
    send_to_backend (MsgInterceptRequest flow_data);;
    mret (flow_data, Some event)
  else mret (flow_data, None).

(** Lines 462-494: from the end of the wait to the end of the hook. *)
Definition request_after_wait (now : nat) (flow : HTTPFlow) (original_request : request_dict)
    (outcome : wait_outcome) : M HTTPFlow :=
  emit (match outcome with
        | Released => LogInfo "Intercept released"
        | TimedOut => LogWarn "Intercept timeout, forwarding"
        end);;
  modify (fun s => set_pending_flows (pop (flow_id flow) (pending_flows s)) s);;
  s ← get;
  match flow_modifications s !! flow_id flow with
  | Some mods =>
      modify (fun s => set_flow_modifications (pop (flow_id flow) (flow_modifications s)) s);;
      if default false (m_drop mods) then
        emit (LogInfo "Dropping flow");;
        mret (kill flow)
      else
        let flow1 :=
          match m_body mods with
          | Some body => with_request (set_request_text body (flow_request flow)) flow
          | None => flow
          end in
        let flow2 :=
          match m_headers mods with
          | Some items =>
              with_request (update_request_headers items (flow_request flow1)) flow1
          | None => flow1
          end in
        let request_modified := bool_decide (is_Some (m_body mods))
                                || bool_decide (is_Some (m_headers mods)) in
        (if request_modified then
           send_to_backend
             (MsgRequestModified (flow_id flow) original_request
                                 (fd_request (flow_to_dict now flow2 false)))
         else mret tt);;
        mret flow2
  | None => mret flow
  end.

(** ** Interception coordinator: the response hooks *)

Definition responseheaders (flow : HTTPFlow) : option (M unit) :=
  match flow_response flow with
  | None => None
  | Some response =>
      let content_type := default "" (headers_get "content-type" (rs_headers response)) in
      Some (if str_contains "text/event-stream" content_type
            then modify (fun s => set_streaming_flows ({[flow_id flow]} ∪ streaming_flows s) s)
            else mret tt)
  end.

Definition mark_stream_complete (d : flow_dict) : flow_dict :=
  FlowDict (fd_flow_id d) (fd_timestamp d) (fd_request d) (fd_is_llm_api d)
           (fd_response d) true (fd_original_response d) (fd_response_modified d)
           (fd_replay_source d).

Definition mark_modified (original : option response_dict) (d : flow_dict) : flow_dict :=
  FlowDict (fd_flow_id d) (fd_timestamp d) (fd_request d) (fd_is_llm_api d)
           (fd_response d) (fd_stream_complete d) original true
           (fd_replay_source d).

(** Lines 569-586: the final [response] message. *)
Definition response_finish (now : nat) (flow : HTTPFlow) (flow_data : flow_dict)
    (response_modified : bool) : M unit :=
  let final_flow_data := flow_to_dict now flow true in
  s ← get;
  let final_flow_data :=
    if bool_decide (flow_id flow ∈ streaming_flows s) || fd_stream_complete flow_data
    then mark_stream_complete final_flow_data else final_flow_data in
  let final_flow_data :=
    if response_modified
    then mark_modified (fd_response flow_data) final_flow_data else final_flow_data in
  send_to_backend (MsgResponse final_flow_data).

(** Lines 514-541, and 569-586 when the response is not intercepted. A
    flow without a response makes line 514 raise: [None]. *)
Definition response_until_wait (now : nat) (flow : HTTPFlow)
    : option (M (flow_dict * option nat)) :=
  match flow_response flow with
  | None => None
  | Some _ => Some (
      let flow_data := flow_to_dict now flow true in
      s ← get;
      flow_data ←
        (if bool_decide (flow_id flow ∈ streaming_flows s) then
           modify (fun s => set_streaming_flows (streaming_flows s ∖ {[flow_id flow]}) s);;
           mret (mark_stream_complete flow_data)
         else mret flow_data);
      s ← get;
      let should_intercept := should_intercept s (rq_host (flow_request flow)) in
      let should_apply := should_apply_rules s in
      if should_intercept || should_apply then
        event ← new_event;
        modify (fun s => set_response_pending (<[flow_id flow := event]> (response_pending s)) s);;
        send_to_backend (MsgInterceptResponse flow_data);;
        mret (flow_data, Some event)
      else
        response_finish now flow flow_data false;;
        mret (flow_data, None))
  end.

Definition map_response (g : http_response -> http_response) (f : HTTPFlow) : HTTPFlow :=
  Flow (flow_id f) (flow_request f) (g <$> flow_response f) (flow_killed f).

Definition update_response_headers (items : list (string * string)) (r : http_response)
    : http_response :=
  foldl (fun r kv => set_response_header kv.1 kv.2 r) r items.

(** Lines 546-586: from the end of the wait to the end of the hook. *)
Definition response_after_wait (now : nat) (flow : HTTPFlow) (flow_data : flow_dict)
    (outcome : wait_outcome) : M HTTPFlow :=
  emit (match outcome with
        | Released => LogInfo "Response intercept released"
        | TimedOut => LogWarn "Response intercept timeout, forwarding"
        end);;
  modify (fun s => set_response_pending (pop (flow_id flow) (response_pending s)) s);;
  s ← get;
  match response_modifications s !! flow_id flow with
  | Some mods =>
      modify (fun s => set_response_modifications
                         (pop (flow_id flow) (response_modifications s)) s);;
      let flow1 :=
        match m_body mods with
        | Some body => map_response (set_response_text body) flow
        | None => flow
        end in
      let flow2 :=
        match m_status_code mods with
        | Some code => map_response (set_response_status code) flow1
        | None => flow1
        end in
      let flow3 :=
        match m_headers mods with
        | Some items => map_response (update_response_headers items) flow2
        | None => flow2
        end in
      let response_modified := bool_decide (is_Some (m_body mods))
                               || bool_decide (is_Some (m_status_code mods))
                               || bool_decide (is_Some (m_headers mods)) in
      response_finish now flow3 flow_data response_modified;;
      mret flow3
  | None =>
      response_finish now flow flow_data false;;
      mret flow
  end.

(** ** Replay orchestrator *)

(** Truth value of an optional string: [None] and [""] are false. *)
Definition truthy (o : option string) : bool :=
  match o with
  | Some (String _ _) => true
  | _ => false
  end.

(** [f"{x}"] of an optional string *)
Definition py_str (o : option string) : string := default "None" o.

Definition no_params : replay_params := ReplayParams None None None None.

(** Lines 334-346. *)
Definition replay_finish (replay_id variant_id : option string) (fid : string)
    (response_info : flow_dict) : M unit :=
  send_to_backend (MsgResponse response_info);;
  send_to_backend (MsgReplayComplete replay_id variant_id fid true).

(** Lines 185-309, and 334-346 when the response is not intercepted. The
    result is what the task then waits on: flow id, event and
    [response_info]. *)
Definition replay_until_wait (now : nat) (data : replay_command)
    : M (option (string * nat * flow_dict)) :=
  let replay_id := rc_replay_id data in
  let variant_id := rc_variant_id data in
  let request_data := default no_params (rc_request data) in
  let intercept_response := default false (rc_intercept_response data) in
  let method := default "GET" (rp_method request_data) in
  let headers := default ∅ (rp_headers request_data) in
  let body := rp_body request_data in
  match rp_url request_data with
  | None | Some EmptyString =>
      emit (LogError "Replay request missing URL");;
      send_to_backend (MsgReplayResponse replay_id variant_id None "Missing URL");;
      mret None
  | Some url =>
      let fid := "replay_" +:+ py_str replay_id in
      match urlparse url with
      | inr e =>
          emit (LogError "Failed to parse URL");;
          send_to_backend
            (MsgReplayResponse replay_id variant_id None ("Invalid URL: " +:+ e));;
          mret None
      | inl parsed =>
          let is_llm := is_llm_api (pu_host parsed) in
          let source := ReplaySource variant_id (rc_parent_flow_id data) in
          let request_info :=
            FlowDict fid now
                     (RequestDict method url (pu_host parsed) (pu_port parsed)
                                  (pu_path parsed) headers body)
                     is_llm None false None false (Some source) in
          send_to_backend (MsgRequest request_info);;
          let content := if truthy body then encode_text <$> body else None in
          emit (HttpCall method url headers content);;
          match client_request method url headers content with
          | inr e =>
              emit (LogError "Replay request failed");;
              send_to_backend (MsgReplayResponse replay_id variant_id (Some fid) e);;
              mret None
          | inl response =>
              let response_info :=
                FlowDict fid now (fd_request request_info) is_llm
                         (Some (ResponseDict (cr_status_code response)
                                             (cr_reason_phrase response)
                                             (cr_headers response)
                                             (Some (cr_text response))))
                         false None false (Some source) in
              if intercept_response then
                event ← new_event;
                modify (fun s => set_response_pending
                                   (<[fid := event]> (response_pending s)) s);;
                send_to_backend (MsgInterceptResponse response_info);;
                mret (Some (fid, event, response_info))
              else
                replay_finish replay_id variant_id fid response_info;;
                mret None
          end
      end
  end.

Definition replay_apply (mods : modifications) (response_info : flow_dict) : flow_dict :=
  let set_response (g : response_dict -> response_dict) (d : flow_dict) :=
    FlowDict (fd_flow_id d) (fd_timestamp d) (fd_request d) (fd_is_llm_api d)
             (g <$> fd_response d) (fd_stream_complete d) (fd_original_response d)
             true (fd_replay_source d) in
  let d1 :=
    match m_body mods with
    | Some body =>
        set_response (fun r => ResponseDict (sd_status_code r) (sd_reason r)
                                            (sd_headers r) (Some body)) response_info
    | None => response_info
    end in
  let d2 :=
    match m_status_code mods with
    | Some code =>
        set_response (fun r => ResponseDict code (sd_reason r)
                                            (sd_headers r) (sd_content r)) d1
    | None => d1
    end in
  match m_headers mods with
  | Some items =>
      set_response (fun r => ResponseDict (sd_status_code r) (sd_reason r)
                                          (foldl (fun h kv => <[kv.1 := kv.2]> h)
                                                 (sd_headers r) items)
                                          (sd_content r)) d2
  | None => d2
  end.

(** Lines 314-346: from the end of the wait to the end of the task. *)
Definition replay_after_wait (data : replay_command) (fid : string)
    (response_info : flow_dict) (outcome : wait_outcome) : M unit :=
  emit (match outcome with
        | Released => LogInfo "Replay response intercept released"
        | TimedOut => LogWarn "Replay response intercept timeout"
        end);;
  modify (fun s => set_response_pending (pop fid (response_pending s)) s);;
  s ← get;
  response_info ←
    match response_modifications s !! fid with
    | Some mods =>
        modify (fun s => set_response_modifications
                           (pop fid (response_modifications s)) s);;
        mret (replay_apply mods response_info)
    | None => mret response_info
    end;
  replay_finish (rc_replay_id data) (rc_variant_id data) fid response_info.

End Addon.

(** ** The addon among its tasks

    One cooperative scheduler runs the command reader, the hooks that the
    proxy engine calls and the replay tasks. A suspended hook or replay
    task is a [waiter]: the event it waits on, the time the wait began,
    and what it needs to go on. The engine gives every flow its own id
    and runs the hooks of one flow one after the other, and the operator
    numbers its replays, so a wait is registered only for an id that has
    no waiter in that phase ([step] is undefined otherwise). A wait ends
    released once its event is set, and timed out once
    [INTERCEPT_TIMEOUT] has passed. Between the moment the timer fires
    and the moment the task runs again the reader may handle a command,
    so at a timeout the event may be set and a modification set stored. *)

Inductive task :=
  | RequestTask (flow : HTTPFlow) (original_request : request_dict)
  | ResponseTask (flow : HTTPFlow) (flow_data : flow_dict)
  | ReplayTask (data : replay_command) (response_info : flow_dict).

Definition task_id (t : task) : string :=
  match t with
  | RequestTask flow _ => flow_id flow
  | ResponseTask flow _ => flow_id flow
  | ReplayTask _ response_info => fd_flow_id response_info
  end.

Record waiter := Waiter {
  wt_event : nat;
  wt_since : nat;
  wt_task : task
}.

Record world := World {
  addon : TrafficInspectorAddon;
  clock : nat;
  request_waiters : gmap string waiter;
  response_waiters : gmap string waiter;
  trace : list effect
}.

Definition init_world : world := World init 0 ∅ ∅ [].

Inductive phase := RequestPhase | ResponsePhase.

Inductive occurrence :=
  | Command (c : command)
  | RequestHook (flow : HTTPFlow)
  | ResponseHeadersHook (flow : HTTPFlow)
  | ResponseHook (flow : HTTPFlow)
  | ReplayRuns (data : replay_command)
  | WaitEnds (p : phase) (fid : string) (outcome : wait_outcome)
  | Tick (d : nat).

Definition may_end (w : world) (wt : waiter) (outcome : wait_outcome) : bool :=
  match outcome with
  | Released => event_is_set (wt_event wt) (addon w)
  | TimedOut => Nat.leb (wt_since wt + INTERCEPT_TIMEOUT) (clock w)
  end.

Section World.
Context `{Environment}.

(** What the task behind a waiter does when its wait ends. *)
Definition resume (now : nat) (t : task) (outcome : wait_outcome) : M unit :=
  match t with
  | RequestTask flow original_request =>
      request_after_wait now flow original_request outcome;; mret tt
  | ResponseTask flow flow_data =>
      response_after_wait now flow flow_data outcome;; mret tt
  | ReplayTask data response_info =>
      replay_after_wait data (fd_flow_id response_info) response_info outcome
  end.

Definition step (o : occurrence) (w : world) : option world :=
  match o with
  | Command c =>
      let r := _process_backend_command c (addon w) in
      Some (World (state_of r) (clock w) (request_waiters w) (response_waiters w)
                  (trace w ++ effects_of r))
  | RequestHook flow =>
      match request_waiters w !! flow_id flow with
      | Some _ => None
      | None =>
          let r := request_until_wait (clock w) flow (addon w) in
          let waiters :=
            match value_of r with
            | (flow_data, Some event) =>
                <[flow_id flow :=
                    Waiter event (clock w) (RequestTask flow (fd_request flow_data))]>
                  (request_waiters w)
            | (_, None) => request_waiters w
            end in
          Some (World (state_of r) (clock w) waiters (response_waiters w)
                      (trace w ++ effects_of r))
      end
  | ResponseHeadersHook flow =>
      m ← responseheaders flow;
      let r := m (addon w) in
      Some (World (state_of r) (clock w) (request_waiters w) (response_waiters w)
                  (trace w ++ effects_of r))
  | ResponseHook flow =>
      match response_waiters w !! flow_id flow with
      | Some _ => None
      | None =>
          m ← response_until_wait (clock w) flow;
          let r := m (addon w) in
          let waiters :=
            match value_of r with
            | (flow_data, Some event) =>
                <[flow_id flow := Waiter event (clock w) (ResponseTask flow flow_data)]>
                  (response_waiters w)
            | (_, None) => response_waiters w
            end in
          Some (World (state_of r) (clock w) (request_waiters w) waiters
                      (trace w ++ effects_of r))
      end
  | ReplayRuns data =>
      let r := replay_until_wait (clock w) data (addon w) in
      match value_of r with
      | Some (fid, event, response_info) =>
          match response_waiters w !! fid with
          | Some _ => None
          | None =>
              Some (World (state_of r) (clock w) (request_waiters w)
                          (<[fid := Waiter event (clock w) (ReplayTask data response_info)]>
                             (response_waiters w))
                          (trace w ++ effects_of r))
          end
      | None =>
          Some (World (state_of r) (clock w) (request_waiters w) (response_waiters w)
                      (trace w ++ effects_of r))
      end
  | WaitEnds RequestPhase fid outcome =>
      wt ← request_waiters w !! fid;
      if may_end w wt outcome then
        let r := resume (clock w) (wt_task wt) outcome (addon w) in
        Some (World (state_of r) (clock w) (delete fid (request_waiters w))
                    (response_waiters w) (trace w ++ effects_of r))
      else None
  | WaitEnds ResponsePhase fid outcome =>
      wt ← response_waiters w !! fid;
      if may_end w wt outcome then
        let r := resume (clock w) (wt_task wt) outcome (addon w) in
        Some (World (state_of r) (clock w) (request_waiters w)
                    (delete fid (response_waiters w)) (trace w ++ effects_of r))
      else None
  | Tick d =>
      Some (World (addon w) (clock w + d) (request_waiters w) (response_waiters w)
                  (trace w))
  end.

Fixpoint run (os : list occurrence) (w : world) : option world :=
  match os with
  | [] => Some w
  | o :: os' => w' ← step o w; run os' w'
  end.

End World.


(** * Definitions used to state the properties *)

Section Statements.
Context `{Environment}.

(** The pause decision in the words of the specification (section 4.3). *)
Definition should_pause_spec (s : TrafficInspectorAddon) (host : string) : bool :=
  String.eqb (intercept_mode s) "intercept_all"
  || (String.eqb (intercept_mode s) "intercept_llm" && is_llm_api host)
  || rules_enabled s.

(** Whether a hook run registers a wait. *)
Definition request_pauses (now : nat) (flow : HTTPFlow) (s : TrafficInspectorAddon) : bool :=
  bool_decide (is_Some (value_of (request_until_wait now flow s)).2).

Definition response_pauses (now : nat) (flow : HTTPFlow) (s : TrafficInspectorAddon)
    : option bool :=
  (fun m => bool_decide (is_Some (value_of (m s)).2)) <$> response_until_wait now flow.



(** Whether some [replay_complete] message is among the effects. *)
Definition is_replay_complete (m : message) : bool :=
  match m with MsgReplayComplete _ _ _ _ => true | _ => false end.

Definition reports_replay_complete (es : list effect) : Prop :=
  exists m, m ∈ sent_messages es /\ is_replay_complete m = true.

(** Registration in the words of the specification (section 4.2): it
    fails when a wait already exists for the id. *)
Inductive registration_error := DuplicateRegistration.

Definition register_spec (fid : string) (event : nat) (registry : gmap string nat)
    : registration_error + gmap string nat :=
  match registry !! fid with
  | Some _ => inl DuplicateRegistration
  | None => inr (<[fid := event]> registry)
  end.

(** The outbound messages of one phase: [request] and [response] are the
    observed messages, [intercept_request] and [intercept_response] the
    pause messages. *)
Definition is_observed (p : phase) (m : message) : bool :=
  match p, m with
  | RequestPhase, MsgRequest _ => true
  | ResponsePhase, MsgResponse _ => true
  | _, _ => false
  end.

Definition is_pause (p : phase) (m : message) : bool :=
  match p, m with
  | RequestPhase, MsgInterceptRequest _ => true
  | ResponsePhase, MsgInterceptResponse _ => true
  | _, _ => false
  end.

Fixpoint pause_before_observed (p : phase) (ms : list message) : bool :=
  match ms with
  | [] => false
  | m :: ms' =>
      if is_observed p m then false
      else is_pause p m || pause_before_observed p ms'
  end.

Definition count_observed (p : phase) (ms : list message) : nat :=
  length (List.filter (is_observed p) ms).

(** Section 8: exactly one observed message, and no pause message ahead
    of it. *)
Definition observed_once_before_pause (p : phase) (ms : list message) : bool :=
  Nat.eqb (count_observed p ms) 1 && negb (pause_before_observed p ms).

(** All messages one run of a hook sends: those up to the wait in the
    state [s] it was entered in and, when it waited, those after the wait,
    in the state [s'] it found then. *)
Definition request_phase_messages (now : nat) (flow : HTTPFlow) (s : TrafficInspectorAddon)
    (now' : nat) (s' : TrafficInspectorAddon) (outcome : wait_outcome) : list message :=
  let r := request_until_wait now flow s in
  sent_messages (effects_of r) ++
  match (value_of r).2 with
  | Some _ =>
      sent_messages
        (effects_of (request_after_wait now' flow (fd_request (value_of r).1) outcome s'))
  | None => []
  end.

Definition response_phase_messages (now : nat) (flow : HTTPFlow) (s : TrafficInspectorAddon)
    (now' : nat) (s' : TrafficInspectorAddon) (outcome : wait_outcome)
    : option (list message) :=
  m ← response_until_wait now flow;
  let r := m s in
  Some (sent_messages (effects_of r) ++
        match (value_of r).2 with
        | Some _ =>
            sent_messages
              (effects_of (response_after_wait now' flow (value_of r).1 outcome s'))
        | None => []
        end).

(** ** Invariant of the registries

    A registry (request or response phase) with its stored modification
    sets, the set events and the waiters of the phase: a stored
    modification set belongs to an id whose registered event is set; a
    waiter waits on the event registered for its id; every registered id
    has a waiter. *)

Definition task_phase (t : task) : phase :=
  match t with
  | RequestTask _ _ => RequestPhase
  | ResponseTask _ _ => ResponsePhase
  | ReplayTask _ _ => ResponsePhase
  end.

Definition waiters_of (p : phase) (w : world) : gmap string waiter :=
  match p with
  | RequestPhase => request_waiters w
  | ResponsePhase => response_waiters w
  end.

Definition registry_ok (p : phase) (pending : gmap string nat)
    (mods : gmap string modifications) (flags : gset nat)
    (waiters : gmap string waiter) : Prop :=
  (forall fid m, mods !! fid = Some m ->
     exists e, pending !! fid = Some e /\ e ∈ flags)
  /\ (forall fid wt, waiters !! fid = Some wt ->
        pending !! fid = Some (wt_event wt)
        /\ task_id (wt_task wt) = fid
        /\ task_phase (wt_task wt) = p)
  /\ (forall fid e, pending !! fid = Some e -> is_Some (waiters !! fid)).

Definition consistent (w : world) : Prop :=
  registry_ok RequestPhase (pending_flows (addon w)) (flow_modifications (addon w))
              (event_flags (addon w)) (request_waiters w)
  /\ registry_ok ResponsePhase (response_pending (addon w))
                 (response_modifications (addon w))
                 (event_flags (addon w)) (response_waiters w).



End Statements.

(** * Sample inputs *)

(** A header container in the manner of the proxy engine: names are
    compared in lower case; assignment overwrites the first field of that
    name, keeping its spelling, and removes the others, or appends a
    field; lookup joins the values of the fields of that name; the
    dictionary has one key per name, in its first spelling; [set_text]
    encodes the text and sets [content-length]. *)

Definition ascii_lower (c : ascii) : ascii :=
  let n := N_of_ascii c in
  if (65 <=? n)%N && (n <=? 90)%N then ascii_of_N (n + 32) else c.

Fixpoint lower (s : string) : string :=
  match s with
  | EmptyString => EmptyString
  | String c rest => String (ascii_lower c) (lower rest)
  end.

Definition sample_same_name (k k' : string) : bool :=
  String.eqb (lower k) (lower k').

Definition named (k : string) (f : string * string) : bool := sample_same_name f.1 k.

Definition not_named (k : string) (f : string * string) : bool :=
  negb (sample_same_name f.1 k).

Fixpoint sample_headers_set (k v : string) (h : header_fields) : header_fields :=
  match h with
  | [] => [(k, v)]
  | f :: rest =>
      if named k f then (f.1, v) :: List.filter (not_named k) rest
      else f :: sample_headers_set k v rest
  end.

Fixpoint join_values (vs : list string) : string :=
  match vs with
  | [] => ""
  | [v] => v
  | v :: rest => v +:+ ", " +:+ join_values rest
  end.

Definition sample_headers_get (k : string) (h : header_fields) : option string :=
  match List.filter (named k) h with
  | [] => None
  | fs => Some (join_values (snd <$> fs))
  end.

Fixpoint sample_names (h : header_fields) : list string :=
  match h with
  | [] => []
  | f :: rest =>
      f.1 :: List.filter (fun n => negb (sample_same_name n f.1)) (sample_names rest)
  end.

Definition sample_headers_dict (h : header_fields) : gmap string string :=
  list_to_map ((fun n => (n, default "" (sample_headers_get n h))) <$> sample_names h).

Definition sample_set_text (t : string) (h : header_fields)
    : header_fields * option bytes :=
  (sample_headers_set "content-length" (str_of_len (list_byte_of_string t)) h,
   Some (list_byte_of_string t)).

Definition sample_same_name_refl (a : string) : sample_same_name a a = true.
Proof. unfold sample_same_name. apply String.eqb_refl. Qed.

Definition sample_same_name_trans (a b c : string) :
  sample_same_name a b = true -> sample_same_name a c = sample_same_name b c.
Proof.
  unfold sample_same_name. intros Hab. apply String.eqb_eq in Hab. now rewrite Hab.
Qed.

Definition sample_same_name_apart (a b c : string) :
  sample_same_name a b = false -> sample_same_name b c = true -> sample_same_name a c = false.
Proof.
  unfold sample_same_name. intros Hab Hbc. apply String.eqb_eq in Hbc. now rewrite <- Hbc.
Qed.

Definition filter_named_not_named (k k' : string) (h : header_fields) :
  List.filter (named k') (List.filter (not_named k) h)
  = if sample_same_name k k' then [] else List.filter (named k') h.
Proof.
  induction h as [|f rest IH]; cbn [List.filter].
  - now destruct (sample_same_name k k').
  - unfold not_named at 1, named at 2.
    destruct (sample_same_name f.1 k) eqn:Hk; cbn [negb].
    + rewrite IH, (sample_same_name_trans _ _ k' Hk). now destruct (sample_same_name k k').
    + cbn [List.filter]. unfold named at 1. rewrite IH.
      destruct (sample_same_name k k') eqn:Hkk; [|reflexivity].
      now rewrite (sample_same_name_apart _ _ _ Hk Hkk).
Qed.

Definition sample_filter_set (k k' v : string) (h : header_fields) :
  snd <$> List.filter (named k') (sample_headers_set k v h)
  = if sample_same_name k k' then [v] else snd <$> List.filter (named k') h.
Proof.
  induction h as [|f rest IH].
  - cbn [sample_headers_set List.filter]. unfold named. cbn [fst].
    now destruct (sample_same_name k k').
  - cbn [sample_headers_set]. change (named k f) with (sample_same_name f.1 k).
    destruct (sample_same_name f.1 k) eqn:Hk; cbn [List.filter];
      change (named k' (f.1, v)) with (sample_same_name f.1 k');
      change (named k' f) with (sample_same_name f.1 k').
    + rewrite filter_named_not_named, (sample_same_name_trans _ _ k' Hk).
      now destruct (sample_same_name k k').
    + destruct (sample_same_name k k') eqn:Hkk.
      * now rewrite (sample_same_name_apart _ _ _ Hk Hkk).
      * destruct (sample_same_name f.1 k'); cbn [fmap list_fmap]; now rewrite ?IH.
Qed.

Definition sample_headers_get_set (k k' v : string) (h : header_fields) :
  sample_headers_get k' (sample_headers_set k v h)
  = if sample_same_name k k' then Some v else sample_headers_get k' h.
Proof.
  unfold sample_headers_get.
  pose proof (sample_filter_set k k' v h) as Hf.
  destruct (sample_same_name k k').
  - destruct (List.filter (named k') (sample_headers_set k v h)) as [|f1 [|f2 fs]];
      cbn in Hf; try discriminate. cbn. injection Hf as Hv. now rewrite Hv.
  - destruct (List.filter (named k') (sample_headers_set k v h)) as [|f1 fs],
             (List.filter (named k') h) as [|g1 gs];
      try (cbn in Hf; discriminate).
    + reflexivity.
    + now rewrite Hf.
Qed.

Definition sample_environment : Environment := {|
  MAX_BODY_SIZE := 8;
  decode_utf8 := fun b => Some (string_of_list_byte b);
  encode_text := list_byte_of_string;
  urlparse := fun u => inl (ParsedUrl "example.com" 443 "/");
  client_request := fun _ _ _ _ => inl (ClientResponse 200 "OK" ∅ "pong");
  same_name := sample_same_name;
  headers_set := sample_headers_set;
  headers_get := sample_headers_get;
  headers_dict := sample_headers_dict;
  message_set_text := sample_set_text;
  same_name_refl := sample_same_name_refl;
  headers_get_set := sample_headers_get_set
|}.

Definition sample_request (host : string) (content : option bytes) : http_request :=
  HttpRequest "POST" ("https://" +:+ host +:+ "/v1") host 443 "/v1"
              [("Accept", "*/*")] content.

Definition sample_flow (fid host : string) (content : option bytes) : HTTPFlow :=
  Flow fid (sample_request host content) None false.

Definition sample_response (content : option bytes) : http_response :=
  HttpResponse 200 "OK" [("content-type", "text/plain")] content.

Definition sample_body : bytes := list_byte_of_string "0123456789".
Definition sample_replay (url : option string) (intercept : bool) : replay_command :=
  ReplayCommand (Some "r1") (Some "v1")
                (Some (ReplayParams (Some "POST") url None (Some "ping")))
                (Some intercept) (Some "f0").

Definition intercepting_all : TrafficInspectorAddon :=
  set_intercept_mode "intercept_all" init.

(** A request paused in intercept-all mode and left undecided for the
    whole bound. *)
Definition sample_paused_flow : HTTPFlow :=
  sample_flow "f1" "example.org" (Some sample_body).

Definition sample_timeout_trace : list occurrence :=
  [ Command (CmdSetInterceptMode (Some "intercept_all"));
    RequestHook sample_paused_flow;
    Tick 120;
    ResponseHook (with_response (sample_response (Some sample_body))
                    (sample_flow "f2" "api.openai.com" None));
    Tick 180 ].

Definition sample_timeout_world : world :=
  default init_world (@run sample_environment sample_timeout_trace init_world).

Definition sample_request_waiter : waiter :=
  Waiter 0 0 (RequestTask sample_paused_flow
                (fd_request (@flow_to_dict sample_environment 0 sample_paused_flow false))).



(** * Further definitions *)

(** The id a release command names ([data.get("flow_id")]); [None] for
    the commands that release nothing. *)
Definition release_target (c : command) : option (option string) :=
  match c with
  | CmdForward fid | CmdForwardModified fid _ | CmdDrop fid
  | CmdForwardResponse fid | CmdForwardResponseModified fid _ => Some fid
  | _ => None
  end.

(** The modification set a command stores for the request phase. *)
Definition request_store (c : command) : option modifications :=
  match c with
  | CmdForwardModified _ mods => Some (default no_modifications mods)
  | CmdDrop _ => Some (Mods (Some true) None None None)
  | _ => None
  end.


(** The parameters of the outbound call of a replay (lines 190-193 and
    263): method with its default, headers with their default, and the
    body encoded when it is a non-empty string. *)
Definition replay_method (data : replay_command) : string :=
  default "GET" (rp_method (default no_params (rc_request data))).

Definition replay_headers (data : replay_command) : gmap string string :=
  default ∅ (rp_headers (default no_params (rc_request data))).

Definition replay_content `{Environment} (data : replay_command) : option bytes :=
  let body := rp_body (default no_params (rc_request data)) in
  if truthy body then encode_text <$> body else None.

Definition replay_flow_id (data : replay_command) : string :=
  "replay_" +:+ py_str (rc_replay_id data).

(** Environments in which the outbound call fails, or no URL parses. *)
Definition failing_client_environment : Environment := {|
  MAX_BODY_SIZE := 8;
  decode_utf8 := fun b => Some (string_of_list_byte b);
  encode_text := list_byte_of_string;
  urlparse := fun u => inl (ParsedUrl "example.com" 443 "/");
  client_request := fun _ _ _ _ => inr "connection refused";
  same_name := sample_same_name;
  headers_set := sample_headers_set;
  headers_get := sample_headers_get;
  headers_dict := sample_headers_dict;
  message_set_text := sample_set_text;
  same_name_refl := sample_same_name_refl;
  headers_get_set := sample_headers_get_set
|}.

Definition unparsable_url_environment : Environment := {|
  MAX_BODY_SIZE := 8;
  decode_utf8 := fun b => Some (string_of_list_byte b);
  encode_text := list_byte_of_string;
  urlparse := fun u => inr "Port could not be cast to integer value";
  client_request := fun _ _ _ _ => inr "unreachable";
  same_name := sample_same_name;
  headers_set := sample_headers_set;
  headers_get := sample_headers_get;
  headers_dict := sample_headers_dict;
  message_set_text := sample_set_text;
  same_name_refl := sample_same_name_refl;
  headers_get_set := sample_headers_get_set
|}.

Definition sample_response_info : flow_dict :=
  FlowDict "replay_r1" 0
           (RequestDict "POST" "https://example.com/" "example.com" 443 "/" ∅ (Some "ping"))
           false
           (Some (ResponseDict 200 "OK" {[ "content-type" := "text/plain" ]} (Some "pong")))
           false None false (Some (ReplaySource (Some "v1") (Some "f0"))).


(** Every event that is set or registered has been created: it is below
    the allocation counter. *)
Definition events_allocated (s : TrafficInspectorAddon) : Prop :=
  (forall e, e ∈ event_flags s -> e < event_count s)
  /\ (forall fid e, pending_flows s !! fid = Some e -> e < event_count s)
  /\ (forall fid e, response_pending s !! fid = Some e -> e < event_count s).

(** The registry of a phase and its stored modification sets. *)
Definition registry_of (p : phase) (s : TrafficInspectorAddon) : gmap string nat :=
  match p with
  | RequestPhase => pending_flows s
  | ResponsePhase => response_pending s
  end.

Definition stored_of (p : phase) (s : TrafficInspectorAddon) : gmap string modifications :=
  match p with
  | RequestPhase => flow_modifications s
  | ResponsePhase => response_modifications s
  end.


(** ** Reader loop

    [_handle_backend_messages]: the frames the backend sent, in order, and
    the way the iteration over the connection ends. A frame is one at
    which [json.loads] raises [JSONDecodeError] ([Malformed]), one that
    decodes to a command ([Decoded]), or one at which another exception
    is raised before anything is done ([Raising]: [json.loads] on a binary
    frame that is not UTF-8 raises [UnicodeDecodeError], and a decoded
    value that is not an object has no [get]). Only [JSONDecodeError] is
    caught inside the loop; any other exception leaves it, and the frames
    after it are never read. The result of [_handle_backend_messages]
    tells whether [self.ws] was reset to [None]. *)

Inductive frame :=
  | Malformed (raw : string)
  | Decoded (data : command)
  | Raising (e : string).

Inductive stream_end :=
  | StreamExhausted
  | ConnectionClosed
  | OtherException (e : string).

(** One frame; the result is the exception that leaves the loop, if any. *)
Definition handle_frame (f : frame) : M (option string) :=
  match f with
  | Malformed raw => emit (LogError "Invalid JSON from backend");; mret None
  | Decoded data => _process_backend_command data;; mret None
  | Raising e => mret (Some e)
  end.

Fixpoint read_frames (frames : list frame) : M (option string) :=
  match frames with
  | [] => mret None
  | f :: rest =>
      raised ← handle_frame f;
      match raised with
      | Some e => mret (Some e)
      | None => read_frames rest
      end
  end.

Definition _handle_backend_messages (frames : list frame) (ending : stream_end) : M bool :=
  raised ← read_frames frames;
  match raised with
  | Some e => emit (LogError "Error in backend message handler");; mret true
  | None =>
      match ending with
      | StreamExhausted => mret false
      | ConnectionClosed =>
          emit (LogInfo "Backend WebSocket connection closed");; mret true
      | OtherException e =>
          emit (LogError "Error in backend message handler");; mret true
      end
  end.

Definition is_raising (f : frame) : bool :=
  match f with Raising _ => true | _ => false end.

Definition is_malformed (f : frame) : bool :=
  match f with Malformed _ => true | _ => false end.

(** The frames the loop reads: those before the first at which an
    exception other than [JSONDecodeError] is raised. *)
Fixpoint frames_read (frames : list frame) : list frame :=
  match frames with
  | [] => []
  | f :: rest => if is_raising f then [] else f :: frames_read rest
  end.

Definition decoded_commands (frames : list frame) : list command :=
  omap (fun f => match f with Decoded c => Some c | _ => None end) frames.

(** The exception of the first raising frame, if there is one. *)
Fixpoint first_raised (frames : list frame) : option string :=
  match frames with
  | [] => None
  | Raising e :: _ => Some e
  | _ :: rest => first_raised rest
  end.

Definition is_invalid_json_log (e : effect) : bool :=
  match e with
  | LogError text => String.eqb text "Invalid JSON from backend"
  | _ => false
  end.

Definition sample_frames : list frame :=
  [ Malformed "{";
    Decoded (CmdSetInterceptMode (Some "intercept_all"));
    Raising "UnicodeDecodeError";
    Decoded (CmdSetRulesEnabled (Some true)) ].

(** ** Link manager

    The connection object of the websockets library, by the attributes
    [_is_ws_connected] looks at ([None]: the object has no such
    attribute); the handler task; and what the library answers to
    [websockets.connect] and to [ws.send]. *)

Record websocket := WebSocket {
  close_code : option (option Z);
  state_is_open : option bool;
  closed : option bool
}.

Inductive handler_task := NoTask | TaskRunning | TaskDone.

Record link := Link {
  ws : option websocket;
  _message_handler_task : handler_task
}.

Inductive link_event :=
  | Connected
  | ConnectFailed (e : string)
  | HandlerStarted
  | Slept
  | Written (m : message)
  | WriteFailed (m : message).

(** [state_importable]: whether [from websockets.protocol import State]
    succeeds. *)
Definition _is_ws_connected (state_importable : bool) (l : link) : bool :=
  match ws l with
  | None => false
  | Some c =>
      match close_code c with
      | Some code => bool_decide (code = None)
      | None =>
          match state_is_open c, state_importable with
          | Some open, true => open
          | _, _ =>
              match closed c with
              | Some b => negb b
              | None => true
              end
          end
      end
  end.

Definition ensure_ws_connection (state_importable : bool) (connect : websocket + string)
    (l : link) : link * list link_event :=
  if _is_ws_connected state_importable l then (l, [])
  else
    match connect with
    | inl c =>
        match _message_handler_task l with
        | TaskRunning => (Link (Some c) TaskRunning, [Connected; Slept])
        | NoTask | TaskDone => (Link (Some c) TaskRunning, [Connected; HandlerStarted; Slept])
        end
    | inr e => (Link None (_message_handler_task l), [ConnectFailed e])
    end.

(** [send_to_backend] with the link spelled out; [write_ok] tells whether
    [json.dumps] and [ws.send] go through. *)
Definition send_over_link (state_importable : bool) (connect : websocket + string)
    (write_ok : bool) (m : message) (l : link) : link * list link_event :=
  let r := ensure_ws_connection state_importable connect l in
  if _is_ws_connected state_importable r.1
  then (r.1, r.2 ++ [if write_ok then Written m else WriteFailed m])
  else r.


Definition written (evs : list link_event) : list message :=
  omap (fun e => match e with Written m => Some m | _ => None end) evs.

Definition connects (evs : list link_event) : nat :=
  length (List.filter (fun e => match e with Connected | ConnectFailed _ => true | _ => false end)
                      evs).





(** * Properties *)

(** ** Strings *)

Lemma append_cons (c : ascii) (p q : string) :
  String c p +:+ q = String c (p +:+ q).
Proof. reflexivity. Qed.

Lemma append_empty (q : string) : "" +:+ q = q.
Proof. reflexivity. Qed.

Lemma prefix_app (p s : string) :
  String.prefix p s = true <-> exists post, s = p +:+ post.
Proof.
  revert p. induction s as [|c' s IH]; intros [|c p]; simpl.
  - split; [intros _; by exists "" | done].
  - split; [done | intros [post Hpost]; discriminate].
  - split; [intros _; by exists (String c' s) | done].
  - destruct (ascii_dec c c') as [->|Hne].
    + rewrite IH. split; intros [post Hpost]; exists post;
        rewrite append_cons in *; congruence.
    + split; [done | intros [post Hpost]; rewrite append_cons in Hpost; congruence].
Qed.

Lemma str_contains_infix (needle hay : string) :
  str_contains needle hay = true <->
  exists pre post, hay = pre +:+ needle +:+ post.
Proof.
  induction hay as [|c hay IH]; cbn [str_contains].
  - rewrite orb_false_r, prefix_app. split.
    + intros [post Hpost]. by exists "", post.
    + intros [[|c pre] [post Hpost]]; [by exists post | discriminate].
  - rewrite orb_true_iff, prefix_app, IH. split.
    + intros [[post Hpost] | (pre & post & Hpost)].
      * by exists "", post.
      * exists (String c pre), post. rewrite append_cons. by rewrite Hpost.
    + intros ([|c' pre] & post & Hpost).
      * left. by exists post.
      * right. exists pre, post. rewrite append_cons in Hpost. congruence.
Qed.

Lemma any_llm_host_infix (host : string) :
  any_llm_host host = true <->
  exists h pre post, In h LLM_API_HOSTS /\ host = pre +:+ h +:+ post.
Proof.
  unfold any_llm_host. rewrite existsb_exists. split.
  - intros (h & Hin & Hc). apply str_contains_infix in Hc as (pre & post & ->).
    by exists h, pre, post.
  - intros (h & pre & post & Hin & ->). exists h. split; [done|].
    apply str_contains_infix. by exists pre, post.
Qed.

(** ** Mode controller *)

Lemma decision_spec (s : TrafficInspectorAddon) (host : string) :
  should_intercept s host || should_apply_rules s = should_pause_spec s host.
Proof.
  unfold should_intercept, should_apply_rules, should_pause_spec, is_llm_api.
  destruct (String.eqb_spec (intercept_mode s) "passthrough") as [->|?]; [done|].
  destruct (String.eqb_spec (intercept_mode s) "intercept_llm") as [->|?]; [done|].
  by destruct (String.eqb_spec (intercept_mode s) "intercept_all").
Qed.

(** Unfolds the monad so that a method applied to a state computes. *)
Ltac run_monad :=
  unfold value_of, state_of, effects_of, send_to_backend, emit, modify, get, new_event,
    mbind, M_bind, mret, M_ret in *;
  cbn in *.

Section ModeController.
Context `{Environment}.

Lemma request_pauses_decision now flow s :
  request_pauses now flow s =
  should_intercept s (rq_host (flow_request flow)) || should_apply_rules s.
Proof.
  unfold request_pauses, request_until_wait. run_monad.
  by destruct (should_intercept _ _ || should_apply_rules _).
Qed.

Lemma response_pauses_decision now flow s :
  response_pauses now flow s =
  (fun _ => should_intercept s (rq_host (flow_request flow)) || should_apply_rules s)
    <$> flow_response flow.
Proof.
  unfold response_pauses, response_until_wait.
  destruct (flow_response flow) as [r|]; [|done]. cbn. f_equal.
  unfold response_finish. run_monad.
  unfold should_intercept, should_apply_rules.
  destruct (bool_decide (flow_id flow ∈ streaming_flows s)); cbn;
    by match goal with |- context [if ?c then _ else _] => destruct c end.
Qed.

(** C3: in both hooks a wait is registered exactly when the mode is
    intercept-all, or the mode is intercept-known and the host matches the
    known-endpoint list, or the rules toggle is on; so with the toggle on
    every host pauses in every mode, and turning it on never turns a
    pause off. *)
Theorem C3_pause_decision (now : nat) (flow : HTTPFlow) (s : TrafficInspectorAddon) :
  let host := rq_host (flow_request flow) in
  request_pauses now flow s = should_pause_spec s host
  /\ response_pauses now flow s = (fun _ => should_pause_spec s host) <$> flow_response flow
  /\ request_pauses now flow (set_rules_enabled true s) = true
  /\ response_pauses now flow (set_rules_enabled true s) = (fun _ => true) <$> flow_response flow
  /\ (forall b, orb (should_pause_spec (set_rules_enabled b s) host)
                    (should_pause_spec (set_rules_enabled true s) host)
                = should_pause_spec (set_rules_enabled true s) host).
Proof.
  cbn. rewrite !request_pauses_decision, !response_pauses_decision, !decision_spec.
  assert (Hon : forall h, should_pause_spec (set_rules_enabled true s) h = true).
  { intros h. unfold should_pause_spec. cbn. by rewrite orb_true_r. }
  repeat split.
  - apply Hon.
  - destruct (flow_response flow); [cbn; by rewrite Hon | done].
  - intros b. rewrite Hon. by rewrite orb_true_r.
Qed.

End ModeController.

(** C9: a mode that is none of the three known ones is stored as it is by
    [set_intercept_mode], and then no host is intercepted on account of
    the mode, as in passthrough. *)
Theorem C9_unknown_mode_is_passthrough (mode host : string) (s : TrafficInspectorAddon) :
  mode <> "passthrough" -> mode <> "intercept_llm" -> mode <> "intercept_all" ->
  let s' := state_of (_process_backend_command (CmdSetInterceptMode (Some mode)) s) in
  intercept_mode s' = mode
  /\ should_intercept s' host = false
  /\ should_intercept s' host = should_intercept (set_intercept_mode "passthrough" s) host.
Proof.
  intros H1 H2 H3. cbn. unfold should_intercept. cbn.
  apply String.eqb_neq in H1, H2, H3. by rewrite H1, H2, H3.
Qed.

Lemma C9_unknown_mode_witness :
  let s' := state_of (_process_backend_command (CmdSetInterceptMode (Some "intercept_everything")) init) in
  intercept_mode s' = "intercept_everything"
  /\ should_intercept s' "api.openai.com" = false
  /\ should_intercept s' "api.openai.com"
     = should_intercept (set_intercept_mode "passthrough" init) "api.openai.com".
Proof.
  apply (C9_unknown_mode_is_passthrough "intercept_everything" "api.openai.com" init);
    discriminate.
Defined.

(** C10: a host is flagged as a known endpoint exactly when an entry of
    [LLM_API_HOSTS] occurs somewhere inside it; a host that is not in the
    list but contains an entry is flagged too. *)
Theorem C10_known_endpoint_is_substring_match `{Environment} :
  (forall host, is_llm_api host = true <->
                exists h pre post, In h LLM_API_HOSTS /\ host = pre +:+ h +:+ post)
  /\ (forall now flow inc,
        fd_is_llm_api (flow_to_dict now flow inc) = is_llm_api (rq_host (flow_request flow)))
  /\ (forall s host, intercept_mode s = "intercept_llm" ->
        should_intercept s host = is_llm_api host)
  /\ (let host := "api.openai.com.attacker.example" in
      ~ In host LLM_API_HOSTS /\ is_llm_api host = true)
  /\ (let host := "notchatgpt.com" in
      ~ In host LLM_API_HOSTS /\ is_llm_api host = true).
Proof.
  split; [exact any_llm_host_infix|].
  split; [done|].
  split.
  { intros s host Hm. unfold should_intercept. by rewrite Hm. }
  split; (split; [|reflexivity]); intros Hin; simpl in Hin;
    repeat (destruct Hin as [Hin|Hin]; [discriminate|]); done.
Qed.

(** ** Captured bodies *)







Section Bodies.
Context `{Environment}.


#[local] Arguments _get_body_content : simpl never.


End Bodies.

(** ** Applying a modification set *)

Lemma foldl_insert_lookup_notin (items : list (string * string)) (h : gmap string string)
    (k : string) :
  k ∉ items.*1 ->
  foldl (fun h kv => <[kv.1 := kv.2]> h) h items !! k = h !! k.
Proof.
  revert h. induction items as [|[k' v'] items IH]; intros h Hk; [done|].
  cbn in *. apply not_elem_of_cons in Hk as [Hne Hk].
  rewrite IH by done. by rewrite lookup_insert_ne.
Qed.

Lemma foldl_insert_lookup_in (items : list (string * string)) (h : gmap string string)
    (k v : string) :
  NoDup items.*1 -> (k, v) ∈ items ->
  foldl (fun h kv => <[kv.1 := kv.2]> h) h items !! k = Some v.
Proof.
  revert h. induction items as [|[k' v'] items IH]; intros h Hnd Hin.
  - by apply elem_of_nil in Hin.
  - cbn in *. apply NoDup_cons in Hnd as [Hk' Hnd].
    apply elem_of_cons in Hin as [Heq|Hin].
    + injection Heq as -> ->. rewrite foldl_insert_lookup_notin by done.
      apply lookup_insert_eq.
    + by apply IH.
Qed.

Section Modifications.
Context `{Environment}.






End Modifications.

(** ** Drop *)

Section Drop.
Context `{Environment}.

Lemma request_after_wait_drop now flow original_request outcome s mods :
  flow_modifications s !! flow_id flow = Some mods ->
  m_drop mods = Some true ->
  let r := request_after_wait now flow original_request outcome s in
  value_of r = kill flow
  /\ sent_messages (effects_of r) = []
  /\ flow_modifications (state_of r) !! flow_id flow = None
  /\ pending_flows (state_of r) !! flow_id flow = None.
Proof.
  intros Hq Hd. unfold request_after_wait. run_monad. rewrite Hq. cbn. rewrite Hd. cbn.
  unfold pop. rewrite !lookup_delete_eq. by destruct outcome.
Qed.

(** C5: a drop command for an id that is pending in the request phase
    stores a drop and releases the wait; the request hook then kills the
    flow and returns, with the request as it was and no message sent. A
    drop command for an id that is not pending in the request phase
    changes nothing, also when the id is pending in the response phase. *)
Theorem C5_drop_is_request_phase_only (now : nat) (flow : HTTPFlow)
    (original_request : request_dict) (outcome : wait_outcome) (s : TrafficInspectorAddon) :
  let fid := flow_id flow in
  let r := _process_backend_command (CmdDrop (Some fid)) s in
  match pending_flows s !! fid with
  | Some e =>
      let r' := request_after_wait now flow original_request outcome (state_of r) in
      event_is_set e (state_of r) = true
      /\ value_of r' = kill flow
      /\ flow_killed (value_of r') = true
      /\ flow_request (value_of r') = flow_request flow
      /\ sent_messages (effects_of r') = []
  | None =>
      r = (tt, s, [])
      /\ forall e, response_pending s !! fid = Some e ->
           response_pending (state_of r) !! fid = Some e
           /\ event_is_set e (state_of r) = event_is_set e s
           /\ response_modifications (state_of r) = response_modifications s
  end.
Proof.
  cbn. unfold _process_backend_command. run_monad.
  destruct (pending_flows s !! flow_id flow) as [e|] eqn:Hp; cbn.
  - split.
    { unfold event_is_set. cbn. apply bool_decide_eq_true. set_solver. }
    match goal with |- context [request_after_wait _ _ _ _ ?s1] =>
      destruct (request_after_wait_drop now flow original_request outcome s1
                  (Mods (Some true) None None None)) as (Hv & Hs & _)
    end.
    { cbn. apply lookup_insert_eq. }
    { done. }
    unfold value_of, effects_of in *. rewrite Hv. done.
  - done.
Qed.

End Drop.
(** ** Replay without a URL *)

Section Replay.
Context `{Environment}.

(** C4, as the code has it: a replay command whose request has no URL
    (absent or empty) makes no HTTP call, registers nothing and ends the
    task normally; the one message it sends is a [replay_response] with
    the error "Missing URL", and no [replay_complete] is sent. *)
Theorem C4_missing_url_reported (now : nat) (data : replay_command)
    (s : TrafficInspectorAddon) :
  truthy (rp_url (default no_params (rc_request data))) = false ->
  let r := replay_until_wait now data s in
  value_of r = None
  /\ state_of r = s
  /\ http_calls (effects_of r) = []
  /\ sent_messages (effects_of r)
     = [MsgReplayResponse (rc_replay_id data) (rc_variant_id data) None "Missing URL"]
  /\ ~ reports_replay_complete (effects_of r).
Proof.
  intros Hurl. unfold replay_until_wait.
  assert (Hnot : forall m,
            m ∈ [MsgReplayResponse (rc_replay_id data) (rc_variant_id data) None "Missing URL"] ->
            is_replay_complete m = true -> False).
  { intros m Hin. apply list_elem_of_singleton in Hin as ->. discriminate. }
  destruct (rp_url (default no_params (rc_request data))) as [[|c url]|]; [|done|];
    run_monad; (repeat split; try done); intros (m & Hin & Hm); eauto.
Qed.

End Replay.

Lemma C4_missing_url_witness :
  sent_messages (effects_of (@replay_until_wait sample_environment 0
                               (sample_replay None true) init))
  = [MsgReplayResponse (Some "r1") (Some "v1") None "Missing URL"].
Proof.
  apply (@C4_missing_url_reported sample_environment 0 (sample_replay None true) init).
  reflexivity.
Defined.

(** C4 as stated fails: for a replay command without URL no
    [replay_complete] message is sent. *)
Lemma C4_counterexample :
  ~ reports_replay_complete
      (effects_of (@replay_until_wait sample_environment 0 (sample_replay None true) init)).
Proof.
  intros (m & Hin & Hm). vm_compute in Hin.
  apply list_elem_of_singleton in Hin as ->. discriminate.
Qed.
(** ** Registration *)

Section Registration.
Context `{Environment}.

(** C2, as the code has it: registration never fails. A hook that pauses
    stores a fresh event under the flow id, over whatever event was stored
    there, and leaves every other id alone; so each registry holds one
    event per id, that of the latest registration. The request hook does
    so for every flow, the response hook for every flow that has a
    response. *)
Theorem C2_registration_replaces (now : nat) (flow : HTTPFlow) (s : TrafficInspectorAddon) :
  should_pause_spec s (rq_host (flow_request flow)) = true ->
  ((value_of (request_until_wait now flow s)).2 = Some (event_count s)
   /\ pending_flows (state_of (request_until_wait now flow s))
      = <[flow_id flow := event_count s]> (pending_flows s)
   /\ (forall e0, pending_flows s !! flow_id flow = Some e0 ->
         pending_flows (state_of (request_until_wait now flow s)) !! flow_id flow
         = Some (event_count s))
   /\ (forall fid, fid <> flow_id flow ->
         pending_flows (state_of (request_until_wait now flow s)) !! fid
         = pending_flows s !! fid))
  /\ (forall response, flow_response flow = Some response ->
      exists m,
        response_until_wait now flow = Some m
        /\ (value_of (m s)).2 = Some (event_count s)
        /\ response_pending (state_of (m s))
           = <[flow_id flow := event_count s]> (response_pending s)
        /\ (forall e0, response_pending s !! flow_id flow = Some e0 ->
              response_pending (state_of (m s)) !! flow_id flow = Some (event_count s))
        /\ (forall fid, fid <> flow_id flow ->
              response_pending (state_of (m s)) !! fid = response_pending s !! fid)).
Proof.
  intros Hd. rewrite <- decision_spec in Hd. split.
  - unfold request_until_wait. run_monad.
    unfold should_apply_rules in *. rewrite Hd. cbn.
    repeat split; try done.
    + intros; apply lookup_insert_eq.
    + intros fid Hne. by rewrite lookup_insert_ne.
  - intros response Hresp.
    unfold response_until_wait, response_finish. rewrite Hresp.
    eexists. split; [reflexivity|]. run_monad.
    unfold should_apply_rules in *.
    assert (Hd' : should_intercept
                    (set_streaming_flows (streaming_flows s ∖ {[flow_id flow]}) s)
                    (rq_host (flow_request flow)) || rules_enabled s = true) by exact Hd.
    destruct (bool_decide (flow_id flow ∈ streaming_flows s)); cbn;
      rewrite ?Hd', ?Hd; cbn; repeat split; try done;
      try (intros; apply lookup_insert_eq);
      intros fid Hne; by rewrite lookup_insert_ne.
Qed.

End Registration.

Lemma C2_registration_witness :
  let asked := sample_flow "f1" "example.org" None in
  let answered := with_response (sample_response None) asked in
  let s := state_of (@request_until_wait sample_environment 0 asked intercepting_all) in
  (pending_flows s !! "f1" = Some 0
   /\ pending_flows (state_of (@request_until_wait sample_environment 1 asked s)) !! "f1"
      = Some 1)
  /\ exists m,
       @response_until_wait sample_environment 1 answered = Some m
       /\ response_pending (state_of (m (state_of (m s)))) !! "f1" = Some 2.
Proof.
  intros asked answered s.
  pose proof (@C2_registration_replaces sample_environment 1 asked s eq_refl)
    as [(_ & _ & Hreplace & _) _].
  pose proof (@C2_registration_replaces sample_environment 1 answered s eq_refl)
    as [_ Hresponse].
  split.
  - split; [reflexivity|]. exact (Hreplace 0 eq_refl).
  - destruct (Hresponse (sample_response None) eq_refl) as (m & Hm & _).
    exists m. split; [exact Hm|].
    pose proof (@C2_registration_replaces sample_environment 1 answered
                  (state_of (m s))) as Hagain.
    injection Hm as <-.
    destruct (Hagain eq_refl) as [_ Hsecond].
    destruct (Hsecond (sample_response None) eq_refl) as (m' & Hm' & _ & _ & Hreplace' & _).
    injection Hm' as <-.
    exact (Hreplace' 1 eq_refl).
Defined.

(** C2 as stated fails: with a wait already registered for the flow id,
    where the specification's [register] reports [DuplicateRegistration],
    the request hook registers again and replaces the stored event. *)
Lemma C2_counterexample :
  let flow := sample_flow "f1" "example.org" None in
  let s := state_of (@request_until_wait sample_environment 0 flow intercepting_all) in
  let r := @request_until_wait sample_environment 1 flow s in
  pending_flows s !! "f1" = Some 0
  /\ register_spec "f1" (event_count s) (pending_flows s) = inl DuplicateRegistration
  /\ (value_of r).2 = Some 1
  /\ pending_flows (state_of r) !! "f1" = Some 1.
Proof. vm_compute. done. Qed.
(** ** Order of the messages of a phase *)

Section MessageOrder.
Context `{Environment}.

Lemma request_phase_messages_shape now flow s now' s' outcome :
  let d := flow_to_dict now flow false in
  exists rest,
    request_phase_messages now flow s now' s' outcome = MsgRequest d :: rest
    /\ count_observed RequestPhase rest = 0
    /\ (forall d', MsgInterceptRequest d' ∈ rest ->
          request_pauses now flow s = true /\ d' = d)
    /\ (request_pauses now flow s = true ->
          exists rest', rest = MsgInterceptRequest d :: rest'
                        /\ forall d', MsgInterceptRequest d' ∉ rest').
Proof.
  intros d. subst d.
  unfold request_phase_messages, request_pauses, request_until_wait, request_after_wait.
  run_monad.
  destruct (should_intercept s _ || should_apply_rules s); cbn.
  2: { eexists. split; [reflexivity|]. split; [done|]. split; [|done].
       intros d' Hin. by apply elem_of_nil in Hin. }
  assert (Hone : forall (d : flow_dict) (after : list message),
            (forall d', MsgInterceptRequest d' ∉ after) ->
            count_observed RequestPhase after = 0 ->
            exists rest,
              MsgRequest d :: MsgInterceptRequest d :: after = MsgRequest d :: rest
              /\ count_observed RequestPhase rest = 0
              /\ (forall d', MsgInterceptRequest d' ∈ rest -> true = true /\ d' = d)
              /\ (true = true ->
                    exists rest', rest = MsgInterceptRequest d :: rest'
                                  /\ forall d', MsgInterceptRequest d' ∉ rest')).
  { intros d after Hafter Hcount. eexists. split; [reflexivity|].
    split; [exact Hcount|]. split.
    - intros d' Hin. split; [done|].
      apply elem_of_cons in Hin as [[= ->]|Hin]; [done|]. by apply Hafter in Hin.
    - intros _. by eexists. }
  assert (Hnil : forall d', MsgInterceptRequest d' ∉ ([] : list message)).
  { intros d' Hin. by apply elem_of_nil in Hin. }
  assert (Hmod : forall a b c d', MsgInterceptRequest d' ∉ [MsgRequestModified a b c]).
  { intros a b c d' Hin. apply list_elem_of_singleton in Hin. discriminate. }
  destruct (flow_modifications s' !! flow_id flow) as [[dr b h c]|]; cbn.
  2: { destruct outcome; apply Hone; cbn; first [done | apply Hnil]. }
  destruct (default false dr); cbn.
  { destruct outcome; apply Hone; cbn; first [done | apply Hnil]. }
  destruct b, h; cbn; destruct outcome; apply Hone; cbn;
    first [done | apply Hnil | apply Hmod].
Qed.

#[local] Arguments should_intercept : simpl never.
#[local] Arguments flow_to_dict : simpl never.

Lemma response_finish_messages now flow flow_data modified s :
  exists d, sent_messages (effects_of (response_finish now flow flow_data modified s))
            = [MsgResponse d].
Proof. unfold response_finish. run_monad. by eexists. Qed.

Lemma response_until_wait_messages now flow m s :
  response_until_wait now flow = Some m ->
  match (value_of (m s)).2 with
  | Some _ => exists d0, sent_messages (effects_of (m s)) = [MsgInterceptResponse d0]
  | None => exists d, sent_messages (effects_of (m s)) = [MsgResponse d]
  end.
Proof.
  unfold response_until_wait, response_finish.
  destruct (flow_response flow); [|done]. intros [= <-].
  destruct (bool_decide (flow_id flow ∈ streaming_flows s)) eqn:Hst; run_monad;
    rewrite ?Hst; cbn;
    match goal with
    | |- context [if should_intercept ?a ?h || ?b then _ else _] =>
        destruct (should_intercept a h || b)
    end; cbn; by eexists.
Qed.

Lemma response_after_wait_messages now flow flow_data outcome s :
  exists d, sent_messages (effects_of (response_after_wait now flow flow_data outcome s))
            = [MsgResponse d].
Proof.
  unfold response_after_wait, response_finish.
  destruct (response_modifications s !! flow_id flow) as [mods|] eqn:Hm; run_monad;
    rewrite ?Hm; cbn; destruct outcome; by eexists.
Qed.

Lemma response_phase_messages_shape now flow response s now' s' outcome :
  flow_response flow = Some response ->
  exists before d,
    response_phase_messages now flow s now' s' outcome = Some (before ++ [MsgResponse d])
    /\ (before = [] /\ response_pauses now flow s = Some false
        \/ (exists d0, before = [MsgInterceptResponse d0])
           /\ response_pauses now flow s = Some true).
Proof.
  intros Hresp. unfold response_phase_messages, response_pauses.
  destruct (response_until_wait now flow) as [m|] eqn:Hm.
  2: { unfold response_until_wait in Hm. by rewrite Hresp in Hm. }
  pose proof (response_until_wait_messages now flow m s Hm) as Hbefore.
  cbn [mbind option_bind fmap option_fmap option_map].
  destruct (value_of (m s)).2 as [e|] eqn:Hv.
  - destruct Hbefore as [d0 ->].
    destruct (response_after_wait_messages now' flow (value_of (m s)).1 outcome s')
      as [d ->].
    exists [MsgInterceptResponse d0], d. split; [done|]. right. split; [by eexists | reflexivity].
  - destruct Hbefore as [d ->]. exists [], d. split; [done|]. left. split; reflexivity.
Qed.

(** C7, as the code has it: the request phase of every flow sends
    exactly one [request] message, ahead of every other message of the
    phase and so ahead of [intercept_request]; the response phase of
    every flow that has a response sends exactly one [response] message,
    as the last message of the phase, so that when the phase pauses the
    [intercept_response] message comes before it. *)
Theorem C7_observed_message_order (now : nat) (flow : HTTPFlow)
    (s : TrafficInspectorAddon) (now' : nat) (s' : TrafficInspectorAddon)
    (outcome : wait_outcome) :
  (exists d rest,
     request_phase_messages now flow s now' s' outcome = MsgRequest d :: rest
     /\ d = flow_to_dict now flow false
     /\ count_observed RequestPhase rest = 0
     /\ (forall d', MsgInterceptRequest d' ∈ rest ->
           request_pauses now flow s = true /\ d' = d)
     /\ (request_pauses now flow s = true ->
           exists rest', rest = MsgInterceptRequest d :: rest'
                         /\ forall d', MsgInterceptRequest d' ∉ rest')
     /\ observed_once_before_pause RequestPhase
          (request_phase_messages now flow s now' s' outcome) = true)
  /\ (forall response, flow_response flow = Some response ->
      exists before d,
        response_phase_messages now flow s now' s' outcome
        = Some (before ++ [MsgResponse d])
        /\ count_observed ResponsePhase (before ++ [MsgResponse d]) = 1
        /\ (response_pauses now flow s = Some false -> before = [])
        /\ (response_pauses now flow s = Some true ->
              (exists d0, before = [MsgInterceptResponse d0])
              /\ observed_once_before_pause ResponsePhase (before ++ [MsgResponse d])
                 = false)).
Proof.
  split.
  - destruct (request_phase_messages_shape now flow s now' s' outcome)
      as (rest & Hmsgs & Hrest & Hin & Hpause).
    exists (flow_to_dict now flow false), rest.
    split; [exact Hmsgs|]. split; [reflexivity|]. split; [exact Hrest|].
    split; [exact Hin|]. split; [exact Hpause|].
    rewrite Hmsgs. unfold observed_once_before_pause, count_observed in *. cbn.
    by rewrite Hrest.
  - intros response Hresp.
    destruct (response_phase_messages_shape now flow response s now' s' outcome Hresp)
      as (before & d & -> & [[-> Hp] | [[d0 ->] Hp]]);
      eexists _, d; (split; [reflexivity|]); rewrite Hp; cbn; repeat split; try done; eauto.
Qed.

End MessageOrder.

Lemma C7_observed_message_witness :
  let asked := sample_flow "f1" "example.org" None in
  let answered := with_response (sample_response None) asked in
  observed_once_before_pause RequestPhase
    (@request_phase_messages sample_environment 0 asked intercepting_all
       1 intercepting_all Released) = true
  /\ exists before d,
       @response_phase_messages sample_environment 0 answered intercepting_all
         1 intercepting_all Released = Some (before ++ [MsgResponse d])
       /\ exists d0, before = [MsgInterceptResponse d0].
Proof.
  intros asked answered.
  pose proof (@C7_observed_message_order sample_environment 0 asked
                intercepting_all 1 intercepting_all Released)
    as [(d & rest & _ & _ & _ & _ & _ & Hrequest) _].
  pose proof (@C7_observed_message_order sample_environment 0 answered
                intercepting_all 1 intercepting_all Released) as [_ Hresponse].
  split; [exact Hrequest|].
  destruct (Hresponse (sample_response None) eq_refl)
    as (before & d1 & Hmsgs & _ & _ & Hpaused).
  exists before, d1. split; [exact Hmsgs|]. exact (proj1 (Hpaused eq_refl)).
Defined.

(** C7 as stated fails for the response phase: in intercept-all mode the
    response hook sends [intercept_response] first and [response] last. *)
Lemma C7_counterexample :
  let flow := with_response (sample_response None) (sample_flow "f1" "example.org" None) in
  let s := intercepting_all in
  let s' := state_of (_process_backend_command (CmdForwardResponse (Some "f1")) s) in
  exists d0 d,
    @response_phase_messages sample_environment 0 flow s 1 s' Released
    = Some [MsgInterceptResponse d0; MsgResponse d]
    /\ observed_once_before_pause ResponsePhase [MsgInterceptResponse d0; MsgResponse d]
       = false.
Proof. vm_compute. eexists _, _. split; reflexivity. Qed.
(** ** Timeouts *)

Lemma registry_ok_flags p pending mods flags flags' waiters :
  flags ⊆ flags' ->
  registry_ok p pending mods flags waiters ->
  registry_ok p pending mods flags' waiters.
Proof.
  intros Hsub (Ha & Hb & Hd). split; [|done].
  intros fid m Hm. destruct (Ha fid m Hm) as (e & He & Hin). exists e. split; [done|]. by apply Hsub.
Qed.

Lemma registry_ok_store p pending mods flags flags' waiters mods' :
  flags ⊆ flags' ->
  (forall fid m, mods' !! fid = Some m ->
     mods !! fid = Some m \/ exists e, pending !! fid = Some e /\ e ∈ flags') ->
  registry_ok p pending mods flags waiters ->
  registry_ok p pending mods' flags' waiters.
Proof.
  intros Hsub Hnew (Ha & Hb & Hd). split; [|done].
  intros fid m Hm. destruct (Hnew fid m Hm) as [Hold|Hset]; [|done].
  destruct (Ha fid m Hold) as (e & He & Hin). exists e. split; [done|]. by apply Hsub.
Qed.

Lemma registry_ok_register p pending mods flags waiters fid e t :
  waiters !! fid = None ->
  task_id t.(wt_task) = fid -> task_phase t.(wt_task) = p -> wt_event t = e ->
  registry_ok p pending mods flags waiters ->
  registry_ok p (<[fid := e]> pending) mods flags (<[fid := t]> waiters).
Proof.
  intros Hfree Hid Hph He (Ha & Hb & Hd).
  assert (Hnone : pending !! fid = None).
  { destruct (pending !! fid) as [e0|] eqn:Hp; [|done].
    destruct (Hd fid e0 Hp) as [wt Hwt]. congruence. }
  split; [|split].
  - intros i m Hm. destruct (Ha i m Hm) as (e' & He' & Hin).
    exists e'. split; [|done]. rewrite lookup_insert_ne; [done|congruence].
  - intros i wt. destruct (decide (fid = i)) as [<-|Hne].
    + rewrite !lookup_insert_eq. intros [= <-]. by rewrite He.
    + rewrite !lookup_insert_ne by done. apply Hb.
  - intros i e'. destruct (decide (fid = i)) as [<-|Hne].
    + rewrite !lookup_insert_eq. eauto.
    + rewrite !lookup_insert_ne by done. apply Hd.
Qed.

Lemma registry_ok_pop p pending mods flags waiters fid :
  registry_ok p pending mods flags waiters ->
  registry_ok p (delete fid pending) (delete fid mods) flags (delete fid waiters).
Proof.
  intros (Ha & Hb & Hd). split; [|split].
  - intros i m. destruct (decide (fid = i)) as [<-|Hne].
    + by rewrite lookup_delete_eq.
    + rewrite !lookup_delete_ne by done. apply Ha.
  - intros i wt. destruct (decide (fid = i)) as [<-|Hne].
    + by rewrite lookup_delete_eq.
    + rewrite !lookup_delete_ne by done. apply Hb.
  - intros i e. destruct (decide (fid = i)) as [<-|Hne].
    + by rewrite lookup_delete_eq.
    + rewrite !lookup_delete_ne by done. apply Hd.
Qed.


Lemma signal_Some registry fid e :
  signal registry fid = Some e <-> exists i, fid = Some i /\ registry !! i = Some e.
Proof.
  unfold signal. destruct fid as [i|]; cbn.
  - split; [eauto | by intros (? & [= <-] & ?)].
  - split; [done | by intros (? & ? & ?)].
Qed.

Lemma store_for_lookup fid mods m registry e i x :
  signal registry fid = Some e ->
  store_for fid mods m !! i = Some x ->
  m !! i = Some x \/ registry !! i = Some e.
Proof.
  intros Hs. apply signal_Some in Hs as (j & -> & Hj). cbn.
  destruct (decide (j = i)) as [->|Hne].
  - auto.
  - rewrite lookup_insert_ne by done. auto.
Qed.

(** What a command may change: it registers and unregisters nothing, it
    only sets events, and it stores a modification set only for an id
    whose registered event it sets. *)
Lemma command_effect (c : command) (s : TrafficInspectorAddon) :
  let s' := state_of (_process_backend_command c s) in
  pending_flows s' = pending_flows s
  /\ response_pending s' = response_pending s
  /\ event_flags s ⊆ event_flags s'
  /\ (forall i x, flow_modifications s' !! i = Some x ->
        flow_modifications s !! i = Some x
        \/ exists e, pending_flows s !! i = Some e /\ e ∈ event_flags s')
  /\ (forall i x, response_modifications s' !! i = Some x ->
        response_modifications s !! i = Some x
        \/ exists e, response_pending s !! i = Some e /\ e ∈ event_flags s').
Proof.
  destruct c as [mode|en|fid|fid mods|fid|fid|fid mods|d|o];
    unfold _process_backend_command; run_monad;
    repeat match goal with
    | |- context [match signal ?r ?f with _ => _ end] =>
        let Hs := fresh "Hs" in destruct (signal r f) as [?|] eqn:Hs; cbn
    end;
    (split; [done|]); (split; [done|]); (split; [set_solver|]);
    split; intros i x Hx; auto;
    match goal with
    | Hs : signal _ _ = Some ?e |- _ =>
        destruct (store_for_lookup _ _ _ _ _ _ _ Hs Hx); [by left|];
        right; exists e; split; [done | set_solver]
    end.
Qed.

Section Timeouts.
Context `{Environment}.

Lemma request_until_wait_effect now flow s :
  let r := request_until_wait now flow s in
  flow_modifications (state_of r) = flow_modifications s
  /\ response_pending (state_of r) = response_pending s
  /\ response_modifications (state_of r) = response_modifications s
  /\ event_flags (state_of r) = event_flags s
  /\ pending_flows (state_of r)
     = match (value_of r).2 with
       | Some e => <[flow_id flow := e]> (pending_flows s)
       | None => pending_flows s
       end.
Proof.
  unfold request_until_wait. run_monad.
  by destruct (should_intercept s _ || should_apply_rules s).
Qed.

Lemma response_until_wait_effect now flow m s :
  response_until_wait now flow = Some m ->
  let r := m s in
  flow_modifications (state_of r) = flow_modifications s
  /\ pending_flows (state_of r) = pending_flows s
  /\ response_modifications (state_of r) = response_modifications s
  /\ event_flags (state_of r) = event_flags s
  /\ response_pending (state_of r)
     = match (value_of r).2 with
       | Some e => <[flow_id flow := e]> (response_pending s)
       | None => response_pending s
       end.
Proof.
  unfold response_until_wait, response_finish.
  destruct (flow_response flow); [|done]. intros [= <-]. run_monad.
  unfold should_intercept, should_apply_rules.
  destruct (bool_decide (flow_id flow ∈ streaming_flows s)); cbn;
    by match goal with |- context [if ?c then _ else _] => destruct c end.
Qed.

Lemma replay_until_wait_effect now data s :
  let r := replay_until_wait now data s in
  flow_modifications (state_of r) = flow_modifications s
  /\ pending_flows (state_of r) = pending_flows s
  /\ response_modifications (state_of r) = response_modifications s
  /\ event_flags (state_of r) = event_flags s
  /\ match value_of r with
     | Some (fid, e, response_info) =>
         response_pending (state_of r) = <[fid := e]> (response_pending s)
         /\ fd_flow_id response_info = fid
     | None => response_pending (state_of r) = response_pending s
     end.
Proof.
  unfold replay_until_wait, replay_finish.
  destruct (rp_url (default no_params (rc_request data))) as [[|c url]|];
    [by run_monad| |by run_monad].
  destruct (urlparse (String c url)) as [parsed|err]; [|by run_monad].
  run_monad.
  destruct (client_request _ _ _ _) as [response|err]; [|done]. cbn.
  by destruct (default false (rc_intercept_response data)).
Qed.

Lemma request_after_wait_effect now flow original_request outcome s :
  let r := request_after_wait now flow original_request outcome s in
  pending_flows (state_of r) = delete (flow_id flow) (pending_flows s)
  /\ flow_modifications (state_of r) = delete (flow_id flow) (flow_modifications s)
  /\ response_pending (state_of r) = response_pending s
  /\ response_modifications (state_of r) = response_modifications s
  /\ event_flags (state_of r) = event_flags s.
Proof.
  unfold request_after_wait. run_monad.
  destruct (flow_modifications s !! flow_id flow) as [mods|] eqn:Hm; cbn.
  - destruct (default false (m_drop mods)); cbn; [done|].
    by destruct (bool_decide (is_Some (m_body mods)) || bool_decide (is_Some (m_headers mods))).
  - by rewrite (delete_id (flow_modifications s)).
Qed.

Lemma response_after_wait_effect now flow flow_data outcome s :
  let r := response_after_wait now flow flow_data outcome s in
  response_pending (state_of r) = delete (flow_id flow) (response_pending s)
  /\ response_modifications (state_of r) = delete (flow_id flow) (response_modifications s)
  /\ pending_flows (state_of r) = pending_flows s
  /\ flow_modifications (state_of r) = flow_modifications s
  /\ event_flags (state_of r) = event_flags s.
Proof.
  unfold response_after_wait, response_finish. run_monad.
  destruct (response_modifications s !! flow_id flow) as [mods|] eqn:Hm; cbn.
  - done.
  - by rewrite (delete_id (response_modifications s)).
Qed.

Lemma replay_after_wait_effect data fid response_info outcome s :
  let r := replay_after_wait data fid response_info outcome s in
  response_pending (state_of r) = delete fid (response_pending s)
  /\ response_modifications (state_of r) = delete fid (response_modifications s)
  /\ pending_flows (state_of r) = pending_flows s
  /\ flow_modifications (state_of r) = flow_modifications s
  /\ event_flags (state_of r) = event_flags s.
Proof.
  unfold replay_after_wait, replay_finish. run_monad.
  destruct (response_modifications s !! fid) as [mods|] eqn:Hm; cbn.
  - done.
  - by rewrite (delete_id (response_modifications s)).
Qed.

Lemma responseheaders_effect flow m s :
  responseheaders flow = Some m ->
  let r := m s in
  pending_flows (state_of r) = pending_flows s
  /\ flow_modifications (state_of r) = flow_modifications s
  /\ response_pending (state_of r) = response_pending s
  /\ response_modifications (state_of r) = response_modifications s
  /\ event_flags (state_of r) = event_flags s.
Proof.
  unfold responseheaders. destruct (flow_response flow); [|done]. intros [= <-].
  destruct (str_contains _ _); by run_monad.
Qed.

Lemma resume_effect now t outcome s :
  let r := resume now t outcome s in
  event_flags (state_of r) = event_flags s
  /\ match task_phase t with
     | RequestPhase =>
         pending_flows (state_of r) = delete (task_id t) (pending_flows s)
         /\ flow_modifications (state_of r) = delete (task_id t) (flow_modifications s)
         /\ response_pending (state_of r) = response_pending s
         /\ response_modifications (state_of r) = response_modifications s
     | ResponsePhase =>
         response_pending (state_of r) = delete (task_id t) (response_pending s)
         /\ response_modifications (state_of r)
            = delete (task_id t) (response_modifications s)
         /\ pending_flows (state_of r) = pending_flows s
         /\ flow_modifications (state_of r) = flow_modifications s
     end.
Proof.
  destruct t as [flow original_request|flow flow_data|data response_info]; cbn.
  - pose proof (request_after_wait_effect now flow original_request outcome s) as Heff.
    unfold state_of, mbind, M_bind, mret, M_ret in *. cbn in *. tauto.
  - pose proof (response_after_wait_effect now flow flow_data outcome s) as Heff.
    unfold state_of, mbind, M_bind, mret, M_ret in *. cbn in *. tauto.
  - pose proof (replay_after_wait_effect data (fd_flow_id response_info) response_info
                  outcome s) as Heff.
    cbn in Heff. tauto.
Qed.

Lemma step_consistent (o : occurrence) (w w' : world) :
  step o w = Some w' -> consistent w -> consistent w'.
Proof.
  intros Hstep [Hreq Hresp].
  destruct o as [c|flow|flow|flow|data|[|] fid outcome|d]; cbn in Hstep.
  - injection Hstep as <-. unfold consistent. cbn.
    destruct (command_effect c (addon w)) as (Hp & Hrp & Hsub & Hfm & Hrm).
    cbn in *. rewrite Hp, Hrp. split.
    + by apply (registry_ok_store _ _ (flow_modifications (addon w)) (event_flags (addon w))).
    + by apply (registry_ok_store _ _ (response_modifications (addon w))
                  (event_flags (addon w))).
  - destruct (request_waiters w !! flow_id flow) eqn:Hfree; [done|].
    injection Hstep as <-. unfold consistent. cbn.
    destruct (request_until_wait_effect (clock w) flow (addon w))
      as (Hfm & Hrp & Hrm & Hfl & Hp).
    cbn in *. rewrite Hfm, Hrp, Hrm, Hfl, Hp. split; [|done].
    destruct (value_of (request_until_wait (clock w) flow (addon w))) as [fd [e|]]; cbn.
    + by apply registry_ok_register.
    + done.
  - destruct (responseheaders flow) as [m|] eqn:Hm; [|done]. cbn in Hstep.
    injection Hstep as <-. unfold consistent. cbn.
    destruct (responseheaders_effect flow m (addon w) Hm) as (Hp & Hfm & Hrp & Hrm & Hfl).
    cbn in *. by rewrite Hp, Hfm, Hrp, Hrm, Hfl.
  - destruct (response_waiters w !! flow_id flow) eqn:Hfree; [done|].
    destruct (response_until_wait (clock w) flow) as [m|] eqn:Hm; [|done]. cbn in Hstep.
    injection Hstep as <-. unfold consistent. cbn.
    destruct (response_until_wait_effect (clock w) flow m (addon w) Hm)
      as (Hfm & Hp & Hrm & Hfl & Hrp).
    cbn in *. rewrite Hfm, Hrp, Hrm, Hfl, Hp. split; [done|].
    destruct (value_of (m (addon w))) as [fd [e|]]; cbn.
    + by apply registry_ok_register.
    + done.
  - destruct (replay_until_wait_effect (clock w) data (addon w))
      as (Hfm & Hp & Hrm & Hfl & Hrp).
    cbn in *.
    destruct (value_of (replay_until_wait (clock w) data (addon w)))
      as [[[fid e] response_info]|].
    + destruct (response_waiters w !! fid) eqn:Hfree; [done|].
      injection Hstep as <-. unfold consistent. cbn.
      destruct Hrp as [Hrp Hid]. rewrite Hfm, Hrp, Hrm, Hfl, Hp. split; [done|].
      by apply registry_ok_register.
    + injection Hstep as <-. unfold consistent. cbn.
      by rewrite Hfm, Hrp, Hrm, Hfl, Hp.
  - destruct (request_waiters w !! fid) as [wt|] eqn:Hwt; [|done]. cbn in Hstep.
    destruct (may_end w wt outcome); [|done].
    injection Hstep as <-. unfold consistent. cbn.
    destruct Hreq as (Ha & Hb & Hd). destruct (Hb fid wt Hwt) as (_ & Hid & Hph).
    destruct (resume_effect (clock w) (wt_task wt) outcome (addon w)) as (Hfl & Heff).
    rewrite Hph, Hid in Heff. destruct Heff as (Hp & Hfm & Hrp & Hrm). cbn in *.
    rewrite Hfm, Hrp, Hrm, Hfl, Hp. split; [|done].
    by apply registry_ok_pop.
  - destruct (response_waiters w !! fid) as [wt|] eqn:Hwt; [|done]. cbn in Hstep.
    destruct (may_end w wt outcome); [|done].
    injection Hstep as <-. unfold consistent. cbn.
    destruct Hresp as (Ha & Hb & Hd). destruct (Hb fid wt Hwt) as (_ & Hid & Hph).
    destruct (resume_effect (clock w) (wt_task wt) outcome (addon w)) as (Hfl & Heff).
    rewrite Hph, Hid in Heff. destruct Heff as (Hrp & Hrm & Hp & Hfm). cbn in *.
    rewrite Hfm, Hrp, Hrm, Hfl, Hp. split; [done|].
    by apply registry_ok_pop.
  - by injection Hstep as <-.
Qed.

Lemma init_consistent : consistent init_world.
Proof. split; (split; [|split]); intros ? ?; cbn; by rewrite lookup_empty. Qed.

Lemma run_consistent (os : list occurrence) (w w' : world) :
  run os w = Some w' -> consistent w -> consistent w'.
Proof.
  revert w. induction os as [|o os IH]; intros w; cbn.
  - by intros [= <-].
  - destruct (step o w) as [w1|] eqn:Hstep; [|done]. cbn.
    intros Hrun Hc. eapply IH; [done|]. by eapply step_consistent.
Qed.





End Timeouts.


(** * Further properties *)

(** ** Command handler *)

(** X1: a release command ([forward], [forward_modified], [drop],
    [forward_response], [forward_response_modified]) whose flow id is
    absent, or registered in neither phase, leaves the addon as it is and
    sends nothing. *)
Theorem release_of_unknown_id_is_noop (c : command) (fid : option string)
    (s : TrafficInspectorAddon) :
  release_target c = Some fid ->
  signal (pending_flows s) fid = None ->
  signal (response_pending s) fid = None ->
  let r := _process_backend_command c s in
  state_of r = s /\ sent_messages (effects_of r) = [].
Proof.
  intros Ht Hp Hr.
  destruct c; try discriminate; injection Ht as ->;
    unfold _process_backend_command; run_monad; rewrite ?Hp, ?Hr; by cbn.
Qed.

Lemma release_of_unknown_id_witness :
  state_of (_process_backend_command (CmdForwardResponseModified (Some "gone") None)
                                     intercepting_all)
  = intercepting_all.
Proof.
  apply (release_of_unknown_id_is_noop
           (CmdForwardResponseModified (Some "gone") None) (Some "gone") intercepting_all);
    reflexivity.
Defined.

(** X2: a command changes neither registry, allocates no event, and sets
    only events that are registered at that moment: it can release a
    wait that exists, and nothing else. *)
Theorem command_releases_only_registered_waits (c : command) (s : TrafficInspectorAddon) :
  let s' := state_of (_process_backend_command c s) in
  pending_flows s' = pending_flows s
  /\ response_pending s' = response_pending s
  /\ streaming_flows s' = streaming_flows s
  /\ event_count s' = event_count s
  /\ forall e, e ∈ event_flags s' ->
       e ∈ event_flags s
       \/ exists fid, pending_flows s !! fid = Some e \/ response_pending s !! fid = Some e.
Proof.
  destruct c as [mode|en|fid|fid mods|fid|fid|fid mods|d|o];
    unfold _process_backend_command; run_monad;
    repeat match goal with
    | |- context [match signal ?r ?f with _ => _ end] =>
        let Hs := fresh "Hs" in destruct (signal r f) as [?|] eqn:Hs; cbn
    end;
    (repeat split; try done); intros e He; auto;
    apply elem_of_union in He as [He|He]; auto;
    apply elem_of_singleton in He as ->;
    match goal with
    | Hs : signal _ _ = Some _ |- _ => apply signal_Some in Hs as (i & -> & Hi)
    end; right; exists i; auto.
Qed.

(** X3: with the mode and the toggle read from commands that carry no
    [mode] and no [enabled] field, the addon falls back to passthrough
    with rules off, and then neither hook pauses for any flow. The two
    commands change nothing else: both registries, both stores of
    modification sets, the events and the streaming marks are as before. *)
Theorem commands_without_fields_reset_to_passthrough `{Environment}
    (now : nat) (flow : HTTPFlow) (s : TrafficInspectorAddon) :
  let s1 := state_of (_process_backend_command (CmdSetInterceptMode None) s) in
  let s2 := state_of (_process_backend_command (CmdSetRulesEnabled None) s1) in
  intercept_mode s2 = "passthrough"
  /\ rules_enabled s2 = false
  /\ request_pauses now flow s2 = false
  /\ response_pauses now flow s2 = (fun _ => false) <$> flow_response flow
  /\ pending_flows s2 = pending_flows s
  /\ flow_modifications s2 = flow_modifications s
  /\ response_pending s2 = response_pending s
  /\ response_modifications s2 = response_modifications s
  /\ event_flags s2 = event_flags s
  /\ event_count s2 = event_count s
  /\ streaming_flows s2 = streaming_flows s
  /\ s2 = set_rules_enabled false (set_intercept_mode "passthrough" s).
Proof.
  cbn. rewrite request_pauses_decision, response_pauses_decision.
  repeat split; try done.
Qed.

(** X4: while an id is pending in the request phase, the modification
    set stored for it is the one of the latest [forward_modified] or
    [drop] command: a later command replaces what an earlier one stored
    (a drop can be undone, an edit can be turned into a drop), and a plain
    [forward] keeps it. *)
Theorem latest_request_decision_wins (c1 c2 : command) (fid : string) (e : nat)
    (m1 m2 : modifications) (s : TrafficInspectorAddon) :
  pending_flows s !! fid = Some e ->
  release_target c1 = Some (Some fid) -> request_store c1 = Some m1 ->
  release_target c2 = Some (Some fid) -> request_store c2 = Some m2 ->
  let s1 := state_of (_process_backend_command c1 s) in
  let s2 := state_of (_process_backend_command c2 s1) in
  let s3 := state_of (_process_backend_command (CmdForward (Some fid)) s2) in
  flow_modifications s1 !! fid = Some m1
  /\ flow_modifications s2 !! fid = Some m2
  /\ flow_modifications s3 !! fid = Some m2
  /\ event_is_set e s1 = true
  /\ pending_flows s3 !! fid = Some e.
Proof.
  intros Hp Ht1 Hs1 Ht2 Hs2.
  destruct c1; try discriminate; destruct c2; try discriminate;
    injection Ht1 as ->; injection Ht2 as ->;
    injection Hs1 as <-; injection Hs2 as <-;
    unfold _process_backend_command; run_monad; rewrite !Hp; cbn; rewrite ?Hp; cbn;
    rewrite ?Hp; cbn;
    (repeat split; try done); rewrite ?lookup_insert_eq; try done;
    unfold event_is_set; cbn; apply bool_decide_eq_true; set_solver.
Qed.

Lemma latest_request_decision_witness :
  let s := state_of (@request_until_wait sample_environment 0 sample_paused_flow
                       intercepting_all) in
  let s1 := state_of (_process_backend_command (CmdDrop (Some "f1")) s) in
  let s2 := state_of (_process_backend_command
                        (CmdForwardModified (Some "f1") (Some (Mods None (Some "x") None None)))
                        s1) in
  flow_modifications s2 !! "f1" = Some (Mods None (Some "x") None None).
Proof.
  intros s s1 s2.
  apply (latest_request_decision_wins (CmdDrop (Some "f1"))
           (CmdForwardModified (Some "f1") (Some (Mods None (Some "x") None None)))
           "f1" 0 (Mods (Some true) None None None) (Mods None (Some "x") None None) s);
    reflexivity.
Defined.

(** ** Request hook *)

Section RequestHook.
Context `{Environment}.

#[local] Arguments flow_to_dict : simpl never.
#[local] Arguments should_intercept : simpl never.

Lemma request_after_wait_nothing_stored now flow original_request outcome s :
  flow_modifications s !! flow_id flow = None ->
  let r := request_after_wait now flow original_request outcome s in
  value_of r = flow /\ sent_messages (effects_of r) = [].
Proof.
  intros Hm. unfold request_after_wait. run_monad. rewrite Hm. by destruct outcome.
Qed.

(** X5: the request hook consumes a stored modification set once: after
    it has resumed, nothing is stored or registered for its flow id, what
    is stored and registered for other ids is untouched, and a further
    resumption for the same id finds nothing to apply. *)
Theorem request_modifications_consumed_once (now now' : nat) (flow flow' : HTTPFlow)
    (original_request original_request' : request_dict) (outcome outcome' : wait_outcome)
    (s : TrafficInspectorAddon) :
  flow_id flow' = flow_id flow ->
  let r := request_after_wait now flow original_request outcome s in
  let r' := request_after_wait now' flow' original_request' outcome' (state_of r) in
  flow_modifications (state_of r) !! flow_id flow = None
  /\ pending_flows (state_of r) !! flow_id flow = None
  /\ (forall other, other <> flow_id flow ->
        flow_modifications (state_of r) !! other = flow_modifications s !! other
        /\ pending_flows (state_of r) !! other = pending_flows s !! other)
  /\ value_of r' = flow'
  /\ sent_messages (effects_of r') = [].
Proof.
  intros Hid r r'.
  destruct (request_after_wait_effect now flow original_request outcome s)
    as (Hp & Hfm & _).
  fold r in Hp, Hfm.
  assert (Hnone : flow_modifications (state_of r) !! flow_id flow = None).
  { rewrite Hfm. apply lookup_delete_eq. }
  split; [done|]. split; [rewrite Hp; apply lookup_delete_eq|]. split.
  - intros other Hne. rewrite Hp, Hfm. by rewrite !lookup_delete_ne.
  - apply request_after_wait_nothing_stored. by rewrite Hid.
Qed.

(** X6: when a modification set without drop is applied, a
    [request_modified] message is sent exactly when the set has a [body]
    or a [headers] key; it carries the snapshot taken before the wait and
    a snapshot of the request as edited. A set with neither key (empty,
    or only [status_code]) leaves the request as it was and sends
    nothing. *)
Theorem request_modified_sent_iff_edited (now : nat) (flow : HTTPFlow)
    (original_request : request_dict) (outcome : wait_outcome)
    (s : TrafficInspectorAddon) (mods : modifications) :
  flow_modifications s !! flow_id flow = Some mods ->
  default false (m_drop mods) = false ->
  let r := request_after_wait now flow original_request outcome s in
  flow_id (value_of r) = flow_id flow
  /\ flow_killed (value_of r) = flow_killed flow
  /\ flow_response (value_of r) = flow_response flow
  /\ sent_messages (effects_of r)
     = (if bool_decide (is_Some (m_body mods)) || bool_decide (is_Some (m_headers mods))
        then [MsgRequestModified (flow_id flow) original_request
                (fd_request (flow_to_dict now (value_of r) false))]
        else [])
  /\ (m_body mods = None -> m_headers mods = None -> value_of r = flow).
Proof.
  intros Hm Hd. unfold request_after_wait.
  destruct mods as [d [body|] [items|] code]; cbn in Hd; run_monad;
    rewrite Hm; cbn; rewrite Hd; cbn; destruct outcome; cbn; repeat split; done.
Qed.

(** X7: a request that is not intercepted leaves the addon exactly as it
    was (no event is created, nothing is registered) and produces a single
    [request] message with the snapshot of the flow. *)
Theorem request_not_intercepted_is_only_logged (now : nat) (flow : HTTPFlow)
    (s : TrafficInspectorAddon) :
  request_pauses now flow s = false ->
  let r := request_until_wait now flow s in
  state_of r = s
  /\ value_of r = (flow_to_dict now flow false, None)
  /\ effects_of r = [Send (MsgRequest (flow_to_dict now flow false))].
Proof.
  rewrite request_pauses_decision. intros Hd.
  unfold request_until_wait. run_monad. by rewrite Hd.
Qed.

End RequestHook.

Lemma request_modifications_consumed_witness :
  let s := set_flow_modifications {[ "f1" := Mods None (Some "x") None None ]} init in
  let r := @request_after_wait sample_environment 0 sample_paused_flow
             (fd_request (@flow_to_dict sample_environment 0 sample_paused_flow false))
             Released s in
  flow_modifications (state_of r) !! "f1" = None.
Proof.
  intros s r.
  apply (@request_modifications_consumed_once sample_environment 0 0 sample_paused_flow
           sample_paused_flow
           (fd_request (@flow_to_dict sample_environment 0 sample_paused_flow false))
           (fd_request (@flow_to_dict sample_environment 0 sample_paused_flow false))
           Released Released s eq_refl).
Defined.

Lemma request_modified_sent_witness :
  let s := set_flow_modifications {[ "f1" := Mods None None None (Some 500%Z) ]} init in
  let r := @request_after_wait sample_environment 0 sample_paused_flow
             (fd_request (@flow_to_dict sample_environment 0 sample_paused_flow false))
             Released s in
  sent_messages (effects_of r) = [].
Proof.
  intros s r.
  apply (@request_modified_sent_iff_edited sample_environment 0 sample_paused_flow
           (fd_request (@flow_to_dict sample_environment 0 sample_paused_flow false))
           Released s (Mods None None None (Some 500%Z)) eq_refl eq_refl).
Defined.

Lemma request_not_intercepted_witness :
  state_of (@request_until_wait sample_environment 0 sample_paused_flow init) = init.
Proof.
  apply (@request_not_intercepted_is_only_logged sample_environment 0 sample_paused_flow init).
  reflexivity.
Defined.

(** ** Response hooks *)

Section ResponseHook.
Context `{Environment}.

#[local] Arguments flow_to_dict : simpl never.
#[local] Arguments should_intercept : simpl never.

Lemma response_finish_message now flow flow_data modified s :
  let r := response_finish now flow flow_data modified s in
  state_of r = s
  /\ exists d,
       effects_of r = [Send (MsgResponse d)]
       /\ fd_request d = fd_request (flow_to_dict now flow true)
       /\ fd_response d = fd_response (flow_to_dict now flow true)
       /\ fd_response_modified d = modified
       /\ fd_original_response d = (if modified then fd_response flow_data else None).
Proof.
  unfold response_finish. run_monad. split; [done|]. eexists. split; [reflexivity|].
  destruct (bool_decide (flow_id flow ∈ streaming_flows s) || fd_stream_complete flow_data),
    modified; done.
Qed.

#[local] Arguments response_finish : simpl never.

Lemma response_after_wait_stored now flow flow_data outcome s mods :
  response_modifications s !! flow_id flow = Some mods ->
  let r := response_after_wait now flow flow_data outcome s in
  let modified := bool_decide (is_Some (m_body mods))
                  || bool_decide (is_Some (m_status_code mods))
                  || bool_decide (is_Some (m_headers mods)) in
  let s1 := set_response_modifications (pop (flow_id flow) (response_modifications s))
              (set_response_pending (pop (flow_id flow) (response_pending s)) s) in
  flow_killed (value_of r) = flow_killed flow
  /\ flow_request (value_of r) = flow_request flow
  /\ (modified = false -> value_of r = flow)
  /\ state_of r = state_of (response_finish now (value_of r) flow_data modified s1)
  /\ sent_messages (effects_of r)
     = sent_messages (effects_of (response_finish now (value_of r) flow_data modified s1)).
Proof.
  intros Hm. unfold response_after_wait.
  destruct mods as [d [body|] [items|] [code|]]; run_monad; rewrite Hm; cbn;
    by destruct outcome.
Qed.

(** X8: when the response hook applies a stored modification set, a
    [drop] key is ignored (the flow is not killed and the request is not
    touched); the final [response] message is a snapshot of the flow as
    edited, marked modified and carrying the snapshot taken before the
    wait exactly when the set has a [body], [status_code] or [headers]
    key; and the set is gone from the store afterwards. *)
Theorem response_edit_reported_with_original (now : nat) (flow : HTTPFlow)
    (flow_data : flow_dict) (outcome : wait_outcome) (s : TrafficInspectorAddon)
    (mods : modifications) :
  response_modifications s !! flow_id flow = Some mods ->
  let r := response_after_wait now flow flow_data outcome s in
  let modified := bool_decide (is_Some (m_body mods))
                  || bool_decide (is_Some (m_status_code mods))
                  || bool_decide (is_Some (m_headers mods)) in
  flow_killed (value_of r) = flow_killed flow
  /\ flow_request (value_of r) = flow_request flow
  /\ response_modifications (state_of r) !! flow_id flow = None
  /\ (modified = false -> value_of r = flow)
  /\ exists d,
       sent_messages (effects_of r) = [MsgResponse d]
       /\ fd_request d = fd_request (flow_to_dict now (value_of r) true)
       /\ fd_response d = fd_response (flow_to_dict now (value_of r) true)
       /\ fd_response_modified d = modified
       /\ fd_original_response d = (if modified then fd_response flow_data else None).
Proof.
  intros Hm r modified.
  destruct (response_after_wait_stored now flow flow_data outcome s mods Hm)
    as (Hk & Hq & Hsame & Hst & Heff).
  fold r modified in Hk, Hq, Hsame, Hst, Heff.
  match type of Hst with _ = state_of (response_finish _ _ _ _ ?s1) =>
    destruct (response_finish_message now (value_of r) flow_data modified s1)
      as (Hfs & d & Hfe & Hd)
  end.
  split; [done|]. split; [done|]. split.
  { rewrite Hst, Hfs. cbn. unfold pop. apply lookup_delete_eq. }
  split; [done|]. exists d. split; [|done].
  rewrite Heff. unfold sent_messages. by rewrite Hfe.
Qed.

(** X9: the response hook uses up the streaming mark of its flow: the
    snapshot it works with is marked [stream_complete] exactly when the
    flow id was in [streaming_flows], afterwards the id is no longer in
    the set, and the marks of other flows are kept. *)
Theorem response_hook_consumes_stream_mark (now : nat) (flow : HTTPFlow)
    (m : M (flow_dict * option nat)) (s : TrafficInspectorAddon) :
  response_until_wait now flow = Some m ->
  let r := m s in
  fd_stream_complete (value_of r).1 = bool_decide (flow_id flow ∈ streaming_flows s)
  /\ (flow_id flow ∉ streaming_flows (state_of r))
  /\ (forall other, other <> flow_id flow ->
        other ∈ streaming_flows (state_of r) <-> other ∈ streaming_flows s)
  /\ (forall d, MsgInterceptResponse d ∈ sent_messages (effects_of r)
                \/ MsgResponse d ∈ sent_messages (effects_of r) ->
        fd_stream_complete d = bool_decide (flow_id flow ∈ streaming_flows s)).
Proof.
  unfold response_until_wait, response_finish.
  destruct (flow_response flow); [|done]. intros [= <-].
  destruct (bool_decide (flow_id flow ∈ streaming_flows s)) eqn:Hst; run_monad;
    rewrite ?Hst; cbn;
    match goal with
    | |- context [if should_intercept ?a ?h || ?b then _ else _] =>
        destruct (should_intercept a h || b)
    end; cbn.
  all: try apply bool_decide_eq_true in Hst.
  all: try apply bool_decide_eq_false in Hst.
  all: split; [done|]; split; [set_solver|]; split; [set_solver|].
  all: intros d [Hd|Hd]; apply list_elem_of_singleton in Hd; try discriminate.
  all: injection Hd as ->; try done.
  - assert (Hgone : bool_decide (flow_id flow ∈ streaming_flows s ∖ {[flow_id flow]}) = false)
      by (apply bool_decide_eq_false; set_solver).
    by rewrite Hgone.
  - by rewrite (bool_decide_eq_false_2 _ Hst).
Qed.

(** X10: a response that is not intercepted is reported once, with a
    snapshot that is not marked modified and has no original attached;
    nothing is registered in either phase, no event is created or set,
    the stored modification sets of both phases are left alone, and mode
    and toggle stay as they are. *)
Theorem response_not_intercepted_is_only_logged (now : nat) (flow : HTTPFlow)
    (m : M (flow_dict * option nat)) (s : TrafficInspectorAddon) :
  response_until_wait now flow = Some m ->
  response_pauses now flow s = Some false ->
  let r := m s in
  (value_of r).2 = None
  /\ response_pending (state_of r) = response_pending s
  /\ response_modifications (state_of r) = response_modifications s
  /\ pending_flows (state_of r) = pending_flows s
  /\ flow_modifications (state_of r) = flow_modifications s
  /\ event_count (state_of r) = event_count s
  /\ event_flags (state_of r) = event_flags s
  /\ intercept_mode (state_of r) = intercept_mode s
  /\ rules_enabled (state_of r) = rules_enabled s
  /\ exists d,
       sent_messages (effects_of r) = [MsgResponse d]
       /\ fd_response d = fd_response (flow_to_dict now flow true)
       /\ fd_response_modified d = false
       /\ fd_original_response d = None.
Proof.
  intros Hm. rewrite response_pauses_decision.
  unfold response_until_wait, response_finish in Hm.
  destruct (flow_response flow) as [response|]; [|done]. injection Hm as <-.
  cbn. intros [= Hd].
  destruct (bool_decide (flow_id flow ∈ streaming_flows s)) eqn:Hst; run_monad;
    rewrite ?Hst; cbn;
    match goal with
    | |- context [if should_intercept ?a ?h || ?b then _ else _] =>
        replace (should_intercept a h || b) with false by (symmetry; exact Hd)
    end; cbn; (repeat split; try done); eexists; (split; [reflexivity|]);
    match goal with |- context [if ?c then _ else _] => destruct c end; done.
Qed.

End ResponseHook.

Lemma response_edit_reported_witness :
  let flow := with_response (sample_response (Some sample_body))
                (sample_flow "f1" "example.org" None) in
  let s := set_response_modifications {[ "f1" := Mods (Some true) None None None ]} init in
  flow_killed (value_of (@response_after_wait sample_environment 0 flow
                           (@flow_to_dict sample_environment 0 flow true) Released s))
  = false.
Proof.
  intros flow s.
  apply (@response_edit_reported_with_original sample_environment 0 flow
           (@flow_to_dict sample_environment 0 flow true) Released s
           (Mods (Some true) None None None) eq_refl).
Defined.

Lemma response_hook_stream_mark_witness :
  let flow := with_response (sample_response None) (sample_flow "f1" "example.org" None) in
  let s := set_streaming_flows {[ "f1" ]} init in
  exists m, @response_until_wait sample_environment 0 flow = Some m
            /\ fd_stream_complete (value_of (m s)).1 = true.
Proof.
  intros flow s.
  destruct (@response_until_wait sample_environment 0 flow) as [m|] eqn:Hm;
    [|discriminate Hm].
  exists m. split; [reflexivity|].
  exact (proj1 (@response_hook_consumes_stream_mark sample_environment 0 flow m s Hm)).
Defined.

Lemma response_not_intercepted_witness :
  let flow := with_response (sample_response None) (sample_flow "f1" "example.org" None) in
  exists m, @response_until_wait sample_environment 0 flow = Some m
            /\ (value_of (m init)).2 = None.
Proof.
  intros flow.
  destruct (@response_until_wait sample_environment 0 flow) as [m|] eqn:Hm;
    [|discriminate Hm].
  exists m. split; [reflexivity|].
  exact (proj1 (@response_not_intercepted_is_only_logged sample_environment 0 flow m init
                  Hm eq_refl)).
Defined.

(** ** Captured bodies, edge cases *)

Section BodyEdges.
Context `{Environment}.

(** X11: [_get_body_content] gives no content exactly for an absent or
    empty body. A non-empty body that is on a known endpoint, or whose
    length does not exceed [MAX_BODY_SIZE] (a body of exactly that length
    included), is decoded in full; when decoding raises, the result is
    the placeholder "[Binary content, N bytes]". *)
Theorem body_content_edge_cases (content : option bytes) (is_llm : bool) :
  (_get_body_content content is_llm = None <-> content = None \/ content = Some [])
  /\ (forall c, content = Some c -> c <> [] ->
        is_llm = true \/ (Z.of_nat (length c) <= MAX_BODY_SIZE)%Z ->
        _get_body_content content is_llm
        = Some (match decode_utf8 c with
                | Some text => text
                | None => "[Binary content, " +:+ str_of_N (N.of_nat (length c)) +:+ " bytes]"
                end)).
Proof.
  split.
  - unfold _get_body_content. destruct content as [[|b c]|].
    + split; auto.
    + split; [|by intros [|]].
      destruct is_llm; [done|]. by destruct (_ <? _)%Z.
    + split; auto.
  - intros c -> Hne Hfit. unfold _get_body_content. destruct c as [|b c]; [done|].
    destruct is_llm; [done|]. destruct Hfit as [|Hfit]; [done|].
    apply Z.ltb_ge in Hfit. by rewrite Hfit.
Qed.

End BodyEdges.

Lemma body_content_edge_witness :
  @_get_body_content sample_environment (Some (list_byte_of_string "12345678")) false
  = Some "12345678".
Proof.
  refine (proj2 (@body_content_edge_cases sample_environment
                   (Some (list_byte_of_string "12345678")) false)
                _ eq_refl _ _); [discriminate | right; vm_compute; discriminate].
Defined.

(** ** Replay orchestrator *)

Section ReplayRuns.
Context `{Environment}.

#[local] Arguments is_llm_api : simpl never.

(** X12: a replay whose URL parses, whose HTTP call succeeds and whose
    response is not to be intercepted makes exactly one HTTP call and
    sends, in this order, [request], [response] and
    [replay_complete(success)] under the flow id "replay_<replay id>";
    the response snapshot is not marked modified; the addon state is left
    as it was and the task does not wait. *)
Theorem replay_without_intercept_completes (now : nat) (data : replay_command)
    (s : TrafficInspectorAddon) (c : ascii) (url : string) (parsed : parsed_url)
    (response : client_response) :
  rp_url (default no_params (rc_request data)) = Some (String c url) ->
  urlparse (String c url) = inl parsed ->
  client_request (replay_method data) (String c url) (replay_headers data)
                 (replay_content data) = inl response ->
  default false (rc_intercept_response data) = false ->
  let r := replay_until_wait now data s in
  value_of r = None
  /\ state_of r = s
  /\ http_calls (effects_of r)
     = [HttpCall (replay_method data) (String c url) (replay_headers data)
                 (replay_content data)]
  /\ exists request_info response_info,
       sent_messages (effects_of r)
       = [MsgRequest request_info; MsgResponse response_info;
          MsgReplayComplete (rc_replay_id data) (rc_variant_id data)
                            (replay_flow_id data) true]
       /\ fd_flow_id request_info = replay_flow_id data
       /\ fd_flow_id response_info = replay_flow_id data
       /\ fd_request response_info = fd_request request_info
       /\ fd_replay_source request_info
          = Some (ReplaySource (rc_variant_id data) (rc_parent_flow_id data))
       /\ fd_response response_info
          = Some (ResponseDict (cr_status_code response) (cr_reason_phrase response)
                               (cr_headers response) (Some (cr_text response)))
       /\ fd_response_modified response_info = false
       /\ fd_original_response response_info = None.
Proof.
  intros Hurl Hparse Hcall Hint.
  unfold replay_until_wait, replay_finish, replay_method, replay_headers, replay_content in *.
  rewrite Hurl, Hparse. run_monad. rewrite Hcall, Hint. cbn.
  repeat split; try done. by eexists _, _.
Qed.

(** X13: when the HTTP call of a replay fails, the call is not repeated:
    after the [request] message and the one call, a [replay_response]
    with the flow id and the error text is sent; no [response] and no
    [replay_complete] follow, nothing is registered and the task ends. *)
Theorem replay_transport_failure_reported_once (now : nat) (data : replay_command)
    (s : TrafficInspectorAddon) (c : ascii) (url : string) (parsed : parsed_url)
    (error : string) :
  rp_url (default no_params (rc_request data)) = Some (String c url) ->
  urlparse (String c url) = inl parsed ->
  client_request (replay_method data) (String c url) (replay_headers data)
                 (replay_content data) = inr error ->
  let r := replay_until_wait now data s in
  value_of r = None
  /\ state_of r = s
  /\ length (http_calls (effects_of r)) = 1
  /\ exists request_info,
       sent_messages (effects_of r)
       = [MsgRequest request_info;
          MsgReplayResponse (rc_replay_id data) (rc_variant_id data)
                            (Some (replay_flow_id data)) error].
Proof.
  intros Hurl Hparse Hcall.
  unfold replay_until_wait, replay_finish, replay_method, replay_headers, replay_content in *.
  rewrite Hurl, Hparse. run_monad. rewrite Hcall. cbn.
  repeat split; try done. by eexists.
Qed.

(** X14: when the URL of a replay cannot be parsed, no HTTP call is made
    and no [request] message is sent: the only message is a
    [replay_response] without flow id whose error starts with
    "Invalid URL: ". *)
Theorem replay_unparsable_url_makes_no_call (now : nat) (data : replay_command)
    (s : TrafficInspectorAddon) (c : ascii) (url : string) (error : string) :
  rp_url (default no_params (rc_request data)) = Some (String c url) ->
  urlparse (String c url) = inr error ->
  let r := replay_until_wait now data s in
  value_of r = None
  /\ state_of r = s
  /\ http_calls (effects_of r) = []
  /\ sent_messages (effects_of r)
     = [MsgReplayResponse (rc_replay_id data) (rc_variant_id data) None
                          ("Invalid URL: " +:+ error)].
Proof.
  intros Hurl Hparse. unfold replay_until_wait. rewrite Hurl, Hparse. by run_monad.
Qed.


End ReplayRuns.

Lemma replay_without_intercept_witness :
  value_of (@replay_until_wait sample_environment 0
              (sample_replay (Some "https://example.com/") false) init) = None.
Proof.
  apply (@replay_without_intercept_completes sample_environment 0
           (sample_replay (Some "https://example.com/") false) init
           "h"%char "ttps://example.com/" (ParsedUrl "example.com" 443 "/")
           (ClientResponse 200 "OK" ∅ "pong")); reflexivity.
Defined.

Lemma replay_transport_failure_witness :
  length (http_calls (effects_of (@replay_until_wait failing_client_environment 0
                                    (sample_replay (Some "https://example.com/") true) init)))
  = 1.
Proof.
  apply (@replay_transport_failure_reported_once failing_client_environment 0
           (sample_replay (Some "https://example.com/") true) init
           "h"%char "ttps://example.com/" (ParsedUrl "example.com" 443 "/")
           "connection refused"); reflexivity.
Defined.

Lemma replay_unparsable_url_witness :
  http_calls (effects_of (@replay_until_wait unparsable_url_environment 0
                            (sample_replay (Some "https://example.com:x/") true) init))
  = [].
Proof.
  apply (@replay_unparsable_url_makes_no_call unparsable_url_environment 0
           (sample_replay (Some "https://example.com:x/") true) init
           "h"%char "ttps://example.com:x/" "Port could not be cast to integer value");
    reflexivity.
Defined.

Section ReplayRelease.
Context `{Environment}.

(** X16: when the wait of an intercepted replay ends, released or timed
    out, the task sends [response] and [replay_complete(success)] and
    makes no further HTTP call; its registry entry and any stored
    modification set are removed. With nothing stored the response
    snapshot is sent as it was. A stored set replaces body and status
    code, writes its headers over the existing ones (other header names
    keep their value) and marks the snapshot modified exactly when it has
    one of these keys; request, reason and flow id stay, and no original
    response is attached. *)
Theorem replay_release_reports_edited_response (data : replay_command)
    (response_info : flow_dict) (response : response_dict) (outcome : wait_outcome)
    (s : TrafficInspectorAddon) :
  fd_response response_info = Some response ->
  let fid := fd_flow_id response_info in
  let r := replay_after_wait data fid response_info outcome s in
  let stored := response_modifications s !! fid in
  let items := default [] (stored ≫= m_headers) in
  response_pending (state_of r) !! fid = None
  /\ response_modifications (state_of r) !! fid = None
  /\ http_calls (effects_of r) = []
  /\ exists d response',
       sent_messages (effects_of r)
       = [MsgResponse d;
          MsgReplayComplete (rc_replay_id data) (rc_variant_id data) fid true]
       /\ (stored = None -> d = response_info)
       /\ fd_response d = Some response'
       /\ fd_flow_id d = fid
       /\ fd_request d = fd_request response_info
       /\ fd_original_response d = fd_original_response response_info
       /\ fd_response_modified d
          = fd_response_modified response_info
            || bool_decide (is_Some (stored ≫= m_body))
            || bool_decide (is_Some (stored ≫= m_status_code))
            || bool_decide (is_Some (stored ≫= m_headers))
       /\ sd_content response' = default (sd_content response) (Some <$> (stored ≫= m_body))
       /\ sd_status_code response'
          = default (sd_status_code response) (stored ≫= m_status_code)
       /\ sd_reason response' = sd_reason response
       /\ (forall k, k ∉ items.*1 -> sd_headers response' !! k = sd_headers response !! k)
       /\ (forall k v, NoDup items.*1 -> (k, v) ∈ items ->
             sd_headers response' !! k = Some v).
Proof.
  intros Hresp fid r stored items. subst r stored items.
  unfold replay_after_wait, replay_finish.
  destruct (response_modifications s !! fid) as [mods|] eqn:Hm; run_monad; rewrite Hm; cbn;
    unfold pop; rewrite ?lookup_delete_eq.
  - destruct mods as [d [body|] [items|] [code|]]; cbn; rewrite ?Hresp; cbn;
      (split; [done|]); (split; [done|]); (split; [by destruct outcome|]);
      eexists _, _; (split; [by destruct outcome|]); (split; [done|]);
      (split; [first [reflexivity | exact Hresp]|]); cbn;
      rewrite ?orb_true_r, ?orb_false_r;
      (repeat split; try done);
      try (by intros; apply foldl_insert_lookup_notin);
      try (by intros; eapply foldl_insert_lookup_in);
      try (by intros ? ? ? Hin; apply elem_of_nil in Hin).
  - split; [done|]. split; [done|]. split; [by destruct outcome|].
    exists response_info, response. split; [by destruct outcome|].
    rewrite ?orb_false_r. repeat split; try done.
    by intros ? ? ? Hin; apply elem_of_nil in Hin.
Qed.

End ReplayRelease.

Lemma replay_release_witness :
  let s := set_response_modifications
             {[ "replay_r1" := Mods None (Some "edited") (Some [("x-test", "1")]) None ]}
             init in
  response_modifications
    (state_of (replay_after_wait (sample_replay None true) "replay_r1"
                 sample_response_info Released s)) !! "replay_r1"
  = None.
Proof.
  intros s.
  exact (proj1 (proj2 (replay_release_reports_edited_response
                         (sample_replay None true) sample_response_info
                         (ResponseDict 200 "OK" {[ "content-type" := "text/plain" ]}
                                       (Some "pong"))
                         Released s eq_refl))).
Defined.

(** ** The addon among its tasks *)

Section Scheduling.
Context `{Environment}.

(** X17: in every state the addon reaches, the ids registered in a phase
    are exactly the ids of the hooks and replay tasks waiting in that
    phase, each registered event is the one its task waits on, and a
    modification set is stored only for a registered id whose event is
    set. *)
Theorem registry_matches_waiting_tasks (os : list occurrence) (w : world) (p : phase) :
  run os init_world = Some w ->
  dom (registry_of p (addon w)) = dom (waiters_of p w)
  /\ dom (stored_of p (addon w)) ⊆ dom (registry_of p (addon w))
  /\ (forall fid wt, waiters_of p w !! fid = Some wt ->
        registry_of p (addon w) !! fid = Some (wt_event wt)
        /\ task_id (wt_task wt) = fid)
  /\ (forall fid e, registry_of p (addon w) !! fid = Some e ->
        is_Some (stored_of p (addon w) !! fid) -> event_is_set e (addon w) = true).
Proof.
  intros Hrun.
  pose proof (run_consistent os init_world w Hrun init_consistent) as [Hreq Hresp].
  assert (Hok : registry_ok p (registry_of p (addon w)) (stored_of p (addon w))
                  (event_flags (addon w)) (waiters_of p w)) by (by destruct p).
  destruct Hok as (Ha & Hb & Hd). split; [|split; [|split]].
  - apply set_eq. intros fid. rewrite !elem_of_dom. split.
    + intros [e He]. by eapply Hd.
    + intros [wt Hwt]. destruct (Hb fid wt Hwt) as (Hp & _). by eexists.
  - intros fid. rewrite !elem_of_dom. intros [m Hm].
    destruct (Ha fid m Hm) as (e & He & _). by eexists.
  - intros fid wt Hwt. destruct (Hb fid wt Hwt) as (Hp & Hid & _). done.
  - intros fid e He [m Hm]. destruct (Ha fid m Hm) as (e' & He' & Hin).
    unfold event_is_set. apply bool_decide_eq_true. congruence.
Qed.

End Scheduling.

Lemma registry_matches_waiting_witness :
  dom (registry_of RequestPhase (addon sample_timeout_world))
  = dom (waiters_of RequestPhase sample_timeout_world).
Proof.
  assert (Hrun : @run sample_environment sample_timeout_trace init_world
                 = Some sample_timeout_world) by (vm_compute; reflexivity).
  exact (proj1 (@registry_matches_waiting_tasks sample_environment sample_timeout_trace
                  sample_timeout_world RequestPhase Hrun)).
Defined.


Section FreshEvents.
Context `{Environment}.

Lemma request_until_wait_allocates now flow s :
  let r := request_until_wait now flow s in
  match (value_of r).2 with
  | Some e => e = event_count s /\ event_count (state_of r) = S (event_count s)
  | None => event_count (state_of r) = event_count s
  end.
Proof.
  unfold request_until_wait. run_monad.
  by destruct (should_intercept s _ || should_apply_rules s).
Qed.

Lemma response_until_wait_allocates now flow m s :
  response_until_wait now flow = Some m ->
  let r := m s in
  match (value_of r).2 with
  | Some e => e = event_count s /\ event_count (state_of r) = S (event_count s)
  | None => event_count (state_of r) = event_count s
  end.
Proof.
  unfold response_until_wait, response_finish.
  destruct (flow_response flow); [|done]. intros [= <-].
  destruct (bool_decide (flow_id flow ∈ streaming_flows s)) eqn:Hst; run_monad;
    rewrite ?Hst; cbn;
    match goal with
    | |- context [if ?c || ?b then _ else _] => destruct (c || b)
    end; done.
Qed.

Lemma replay_until_wait_allocates now data s :
  let r := replay_until_wait now data s in
  match value_of r with
  | Some (_, e, _) => e = event_count s /\ event_count (state_of r) = S (event_count s)
  | None => event_count (state_of r) = event_count s
  end.
Proof.
  unfold replay_until_wait, replay_finish.
  destruct (rp_url (default no_params (rc_request data))) as [[|c url]|];
    [by run_monad| |by run_monad].
  destruct (urlparse (String c url)) as [parsed|err]; [|by run_monad].
  run_monad.
  destruct (client_request _ _ _ _) as [response|err]; [|done]. cbn.
  by destruct (default false (rc_intercept_response data)).
Qed.

Lemma resume_keeps_count now t outcome s :
  event_count (state_of (resume now t outcome s)) = event_count s.
Proof.
  destruct t as [flow original_request|flow flow_data|data response_info]; cbn.
  - unfold request_after_wait. run_monad.
    destruct (flow_modifications s !! flow_id flow) as [mods|]; cbn; [|done].
    destruct (default false (m_drop mods)); cbn; [done|].
    by destruct (bool_decide (is_Some (m_body mods)) || bool_decide (is_Some (m_headers mods))).
  - unfold response_after_wait, response_finish. run_monad.
    by destruct (response_modifications s !! flow_id flow).
  - unfold replay_after_wait, replay_finish. run_monad.
    by destruct (response_modifications s !! fd_flow_id response_info).
Qed.

Lemma responseheaders_keeps_count flow m s :
  responseheaders flow = Some m -> event_count (state_of (m s)) = event_count s.
Proof.
  unfold responseheaders. destruct (flow_response flow); [|done]. intros [= <-].
  destruct (str_contains _ _); by run_monad.
Qed.

Lemma command_keeps_allocated c s :
  events_allocated s -> events_allocated (state_of (_process_backend_command c s)).
Proof.
  intros (Hf & Hp & Hr).
  destruct (command_effect c s) as (Hpe & Hre & _).
  assert (Hcount : event_count (state_of (_process_backend_command c s)) = event_count s
                   /\ forall e, e ∈ event_flags (state_of (_process_backend_command c s)) ->
                        e ∈ event_flags s
                        \/ exists fid, pending_flows s !! fid = Some e
                                       \/ response_pending s !! fid = Some e).
  { destruct c as [mode|en|fid|fid mods|fid|fid|fid mods|d|o];
      unfold _process_backend_command; run_monad;
      repeat match goal with
      | |- context [match signal ?r ?f with _ => _ end] =>
          let Hs := fresh "Hs" in destruct (signal r f) as [?|] eqn:Hs; cbn
      end;
      (split; [done|]); intros e He; auto;
      apply elem_of_union in He as [He|He]; auto;
      apply elem_of_singleton in He as ->;
      match goal with
      | Hs : signal _ _ = Some _ |- _ => apply signal_Some in Hs as (i & -> & Hi)
      end; right; exists i; auto. }
  destruct Hcount as [Hc Hset]. cbn in Hpe, Hre.
  unfold events_allocated. rewrite Hc, Hpe, Hre. split; [|done].
  intros e He. destruct (Hset e He) as [?|[fid [?|?]]]; eauto.
Qed.

Lemma step_keeps_allocated (o : occurrence) (w w' : world) :
  step o w = Some w' -> events_allocated (addon w) -> events_allocated (addon w').
Proof.
  intros Hstep Hal. pose proof Hal as (Hf & Hp & Hr).
  destruct o as [c|flow|flow|flow|data|[|] fid outcome|d]; cbn in Hstep.
  - injection Hstep as <-. cbn. by apply command_keeps_allocated.
  - destruct (request_waiters w !! flow_id flow); [done|]. injection Hstep as <-. cbn.
    destruct (request_until_wait_effect (clock w) flow (addon w))
      as (_ & Hrp & _ & Hfl & Hpf).
    pose proof (request_until_wait_allocates (clock w) flow (addon w)) as Hc.
    cbn in *. unfold events_allocated. rewrite Hrp, Hfl, Hpf.
    destruct (value_of (request_until_wait (clock w) flow (addon w))) as [fd [e|]]; cbn in *.
    + destruct Hc as [-> ->]. split; [|split].
      * intros e He. specialize (Hf e He). lia.
      * intros i e. destruct (decide (flow_id flow = i)) as [<-|Hne].
        -- rewrite lookup_insert_eq. intros [= <-]. lia.
        -- rewrite lookup_insert_ne by done. intros Hi. specialize (Hp i e Hi). lia.
      * intros i e Hi. specialize (Hr i e Hi). lia.
    + by rewrite Hc.
  - destruct (responseheaders flow) as [m|] eqn:Hm; [|done]. cbn in Hstep.
    injection Hstep as <-. cbn.
    destruct (responseheaders_effect flow m (addon w) Hm) as (Hpf & _ & Hrp & _ & Hfl).
    pose proof (responseheaders_keeps_count flow m (addon w) Hm) as Hc.
    cbn in *. unfold events_allocated. by rewrite Hpf, Hrp, Hfl, Hc.
  - destruct (response_waiters w !! flow_id flow); [done|].
    destruct (response_until_wait (clock w) flow) as [m|] eqn:Hm; [|done]. cbn in Hstep.
    injection Hstep as <-. cbn.
    destruct (response_until_wait_effect (clock w) flow m (addon w) Hm)
      as (_ & Hpf & _ & Hfl & Hrp).
    pose proof (response_until_wait_allocates (clock w) flow m (addon w) Hm) as Hc.
    cbn in *. unfold events_allocated. rewrite Hrp, Hfl, Hpf.
    destruct (value_of (m (addon w))) as [fd [e|]]; cbn in *.
    + destruct Hc as [-> ->]. split; [|split].
      * intros e He. specialize (Hf e He). lia.
      * intros i e Hi. specialize (Hp i e Hi). lia.
      * intros i e. destruct (decide (flow_id flow = i)) as [<-|Hne].
        -- rewrite lookup_insert_eq. intros [= <-]. lia.
        -- rewrite lookup_insert_ne by done. intros Hi. specialize (Hr i e Hi). lia.
    + by rewrite Hc.
  - destruct (replay_until_wait_effect (clock w) data (addon w))
      as (_ & Hpf & _ & Hfl & Hrp).
    pose proof (replay_until_wait_allocates (clock w) data (addon w)) as Hc.
    cbn in *.
    destruct (value_of (replay_until_wait (clock w) data (addon w)))
      as [[[fid e] response_info]|].
    + destruct (response_waiters w !! fid); [done|]. injection Hstep as <-. cbn.
      destruct Hrp as [Hrp _]. destruct Hc as [-> Hc].
      unfold events_allocated. rewrite Hrp, Hfl, Hpf, Hc. split; [|split].
      * intros e He. specialize (Hf e He). lia.
      * intros i e Hi. specialize (Hp i e Hi). lia.
      * intros i e. destruct (decide (fid = i)) as [<-|Hne].
        -- rewrite lookup_insert_eq. intros [= <-]. lia.
        -- rewrite lookup_insert_ne by done. intros Hi. specialize (Hr i e Hi). lia.
    + injection Hstep as <-. cbn. unfold events_allocated. by rewrite Hrp, Hfl, Hpf, Hc.
  - destruct (request_waiters w !! fid) as [wt|]; [|done]. cbn in Hstep.
    destruct (may_end w wt outcome); [|done]. injection Hstep as <-. cbn.
    destruct (resume_effect (clock w) (wt_task wt) outcome (addon w)) as (Hfl & Heff).
    pose proof (resume_keeps_count (clock w) (wt_task wt) outcome (addon w)) as Hc.
    unfold events_allocated. rewrite Hfl, Hc. split; [done|].
    destruct (task_phase (wt_task wt)); destruct Heff as (H1 & _ & H2 & _);
      rewrite H1, H2; split; try done;
      intros i e Hi; apply lookup_delete_Some in Hi as [_ Hi]; eauto.
  - destruct (response_waiters w !! fid) as [wt|]; [|done]. cbn in Hstep.
    destruct (may_end w wt outcome); [|done]. injection Hstep as <-. cbn.
    destruct (resume_effect (clock w) (wt_task wt) outcome (addon w)) as (Hfl & Heff).
    pose proof (resume_keeps_count (clock w) (wt_task wt) outcome (addon w)) as Hc.
    unfold events_allocated. rewrite Hfl, Hc. split; [done|].
    destruct (task_phase (wt_task wt)); destruct Heff as (H1 & _ & H2 & _);
      rewrite H1, H2; split; try done;
      intros i e Hi; apply lookup_delete_Some in Hi as [_ Hi]; eauto.
  - by injection Hstep as <-.
Qed.

Lemma run_keeps_allocated (os : list occurrence) (w w' : world) :
  run os w = Some w' -> events_allocated (addon w) -> events_allocated (addon w').
Proof.
  revert w. induction os as [|o os IH]; intros w; cbn.
  - by intros [= <-].
  - destruct (step o w) as [w1|] eqn:Hstep; [|done]. cbn.
    intros Hrun Hal. eapply IH; [done|]. by eapply step_keeps_allocated.
Qed.

Lemma init_allocated : events_allocated init.
Proof. split; [|split]; intros ? ?; cbn; [set_solver | by rewrite lookup_empty..]. Qed.

End FreshEvents.

Section NewWaits.
Context `{Environment}.

Lemma fresh_event_unset (s : TrafficInspectorAddon) :
  events_allocated s -> event_count s ∉ event_flags s.
Proof. intros (Hf & _) Hin. specialize (Hf _ Hin). lia. Qed.

Lemma new_waiter_lookup (waiters : gmap string waiter) (i fid : string) (x wt : waiter) :
  waiters !! fid = None -> <[i := x]> waiters !! fid = Some wt -> i = fid /\ x = wt.
Proof.
  intros Hnone. destruct (decide (i = fid)) as [->|Hne].
  - rewrite lookup_insert_eq. by intros [= ->].
  - rewrite lookup_insert_ne by done. congruence.
Qed.

(** X19: a hook or replay task that pauses does wait. In every state the
    addon reaches, the event a newly registered wait is given has never
    been set, so right after the registration the wait can end neither
    released nor timed out: it takes a command naming the id, or the
    passing of the bound. *)
Theorem new_wait_is_not_yet_released (os : list occurrence) (o : occurrence)
    (w w' : world) (p : phase) (fid : string) (wt : waiter) :
  run os init_world = Some w ->
  step o w = Some w' ->
  waiters_of p w !! fid = None ->
  waiters_of p w' !! fid = Some wt ->
  may_end w' wt Released = false
  /\ may_end w' wt TimedOut = false
  /\ wt_since wt = clock w'
  /\ wt_event wt = event_count (addon w)
  /\ event_count (addon w') = S (event_count (addon w)).
Proof.
  intros Hrun Hstep Hnone Hnew.
  pose proof (run_keeps_allocated os init_world w Hrun init_allocated) as Hal.
  pose proof (fresh_event_unset (addon w) Hal) as Hfresh.
  assert (Hgoal : forall e s1,
            event_flags s1 = event_flags (addon w) ->
            wt = Waiter e (clock w) (wt_task wt) -> e = event_count (addon w) ->
            clock w' = clock w -> addon w' = s1 ->
            may_end w' wt Released = false /\ may_end w' wt TimedOut = false
            /\ wt_since wt = clock w').
  { intros e s1 Hfl Hwt -> Hck Hs1. rewrite Hwt. unfold may_end, event_is_set. cbn.
    rewrite Hs1, Hfl, Hck. rewrite (bool_decide_eq_false_2 _ Hfresh). cbn.
    split; [done|]. split; [|done]. apply Nat.leb_gt. unfold INTERCEPT_TIMEOUT. lia. }
  destruct o as [c|flow|flow|flow|data|[|] i outcome|d]; cbn in Hstep.
  - injection Hstep as <-. destruct p; cbn in *; congruence.
  - destruct (request_waiters w !! flow_id flow) eqn:Hfree; [done|].
    injection Hstep as <-.
    destruct (request_until_wait_effect (clock w) flow (addon w)) as (_ & _ & _ & Hfl & _).
    pose proof (request_until_wait_allocates (clock w) flow (addon w)) as Hc.
    cbn in Hfl, Hc.
    destruct p; cbn in Hnone, Hnew; [|congruence].
    destruct (value_of (request_until_wait (clock w) flow (addon w))) as [fd [e|]];
      cbn in *; [|congruence].
    apply new_waiter_lookup in Hnew as [_ <-]; [|done]. destruct Hc as [-> Hc].
    destruct (Hgoal (event_count (addon w)) _ Hfl eq_refl eq_refl eq_refl eq_refl)
      as (? & ? & ?).
    done.
  - destruct (responseheaders flow) as [m|]; [|done]. cbn in Hstep.
    injection Hstep as <-. destruct p; cbn in *; congruence.
  - destruct (response_waiters w !! flow_id flow) eqn:Hfree; [done|].
    destruct (response_until_wait (clock w) flow) as [m|] eqn:Hm; [|done]. cbn in Hstep.
    injection Hstep as <-.
    destruct (response_until_wait_effect (clock w) flow m (addon w) Hm)
      as (_ & _ & _ & Hfl & _).
    pose proof (response_until_wait_allocates (clock w) flow m (addon w) Hm) as Hc.
    cbn in Hfl, Hc.
    destruct p; cbn in Hnone, Hnew; [congruence|].
    destruct (value_of (m (addon w))) as [fd [e|]]; cbn in *; [|congruence].
    apply new_waiter_lookup in Hnew as [_ <-]; [|done]. destruct Hc as [-> Hc].
    destruct (Hgoal (event_count (addon w)) _ Hfl eq_refl eq_refl eq_refl eq_refl)
      as (? & ? & ?).
    done.
  - destruct (replay_until_wait_effect (clock w) data (addon w)) as (_ & _ & _ & Hfl & _).
    pose proof (replay_until_wait_allocates (clock w) data (addon w)) as Hc.
    cbn in Hfl, Hc.
    destruct (value_of (replay_until_wait (clock w) data (addon w)))
      as [[[i e] response_info]|].
    + destruct (response_waiters w !! i) eqn:Hfree; [done|]. injection Hstep as <-.
      destruct p; cbn in Hnone, Hnew; [congruence|].
      apply new_waiter_lookup in Hnew as [_ <-]; [|done]. destruct Hc as [-> Hc].
      destruct (Hgoal (event_count (addon w)) _ Hfl eq_refl eq_refl eq_refl eq_refl)
        as (? & ? & ?).
      done.
    + injection Hstep as <-. destruct p; cbn in *; congruence.
  - destruct (request_waiters w !! i) as [wt0|]; [|done]. cbn in Hstep.
    destruct (may_end w wt0 outcome); [|done]. injection Hstep as <-.
    destruct p; cbn in *; [|congruence].
    apply lookup_delete_Some in Hnew as [_ Hnew]. congruence.
  - destruct (response_waiters w !! i) as [wt0|]; [|done]. cbn in Hstep.
    destruct (may_end w wt0 outcome); [|done]. injection Hstep as <-.
    destruct p; cbn in *; [congruence|].
    apply lookup_delete_Some in Hnew as [_ Hnew]. congruence.
  - injection Hstep as <-. destruct p; cbn in *; congruence.
Qed.

End NewWaits.

Lemma new_wait_witness :
  let w := default init_world
             (@run sample_environment
                [Command (CmdSetInterceptMode (Some "intercept_all"))] init_world) in
  let w' := default init_world
              (@step sample_environment (RequestHook sample_paused_flow) w) in
  may_end w' sample_request_waiter Released = false.
Proof.
  intros w w'.
  assert (Hrun : @run sample_environment
                   [Command (CmdSetInterceptMode (Some "intercept_all"))] init_world
                 = Some w) by (vm_compute; reflexivity).
  assert (Hstep : @step sample_environment (RequestHook sample_paused_flow) w = Some w')
    by (vm_compute; reflexivity).
  assert (Hnone : waiters_of RequestPhase w !! "f1" = None) by (vm_compute; reflexivity).
  assert (Hnew : waiters_of RequestPhase w' !! "f1" = Some sample_request_waiter)
    by (vm_compute; reflexivity).
  exact (proj1 (@new_wait_is_not_yet_released sample_environment _ _ w w' RequestPhase
                  "f1" sample_request_waiter Hrun Hstep Hnone Hnew)).
Defined.

(** ** Reader loop *)

Lemma command_sends_nothing (c : command) (s : TrafficInspectorAddon) :
  sent_messages (effects_of (_process_backend_command c s)) = []
  /\ http_calls (effects_of (_process_backend_command c s)) = [].
Proof.
  destruct c as [mode|en|fid|fid mods|fid|fid|fid mods|d|o];
    unfold _process_backend_command; run_monad;
    repeat match goal with
    | |- context [match signal ?r ?f with _ => _ end] =>
        destruct (signal r f) as [?|]; cbn
    end; done.
Qed.

Lemma command_logs_no_invalid_json (c : command) (s : TrafficInspectorAddon) :
  List.filter is_invalid_json_log (effects_of (_process_backend_command c s)) = [].
Proof.
  destruct c as [mode|en|fid|fid mods|fid|fid|fid mods|d|o];
    unfold _process_backend_command; run_monad;
    repeat match goal with
    | |- context [match signal ?r ?f with _ => _ end] =>
        destruct (signal r f) as [?|]; cbn
    end; done.
Qed.

Lemma read_frames_effect (frames : list frame) (s : TrafficInspectorAddon) :
  let r := read_frames frames s in
  value_of r = first_raised frames
  /\ state_of r
     = foldl (fun s c => state_of (_process_backend_command c s)) s
             (decoded_commands (frames_read frames))
  /\ sent_messages (effects_of r) = []
  /\ http_calls (effects_of r) = []
  /\ length (List.filter is_invalid_json_log (effects_of r))
     = length (List.filter is_malformed (frames_read frames))
  /\ pending_flows (state_of r) = pending_flows s
  /\ response_pending (state_of r) = response_pending s.
Proof.
  revert s. induction frames as [|f frames IH]; intros s; [done|].
  destruct f as [raw|c|e]; cbn [read_frames handle_frame frames_read is_raising
                                first_raised decoded_commands omap list_omap
                                List.filter is_malformed].
  - destruct (IH s) as (Hv & Hst & Hs & Hh & Hl & Hp & Hr).
    unfold mbind, M_bind, mret, M_ret, emit, value_of, state_of, effects_of,
      sent_messages, http_calls in *. cbn in *.
    rewrite Hv, Hs, Hh, Hl, Hp, Hr, Hst. done.
  - destruct (command_sends_nothing c s) as [Hcs Hch].
    destruct (command_effect c s) as (Hcp & Hcr & _).
    pose proof (command_logs_no_invalid_json c s) as Hcl.
    destruct (IH (state_of (_process_backend_command c s)))
      as (Hv & Hst & Hs & Hh & Hl & Hp & Hr).
    unfold mbind, M_bind, mret, M_ret, value_of, state_of, effects_of,
      sent_messages, http_calls in *. cbn in *.
    rewrite ?app_nil_r, ?omap_app, ?List.filter_app, ?length_app, Hcs, Hch, Hcl, Hv,
      Hs, Hh, Hl, Hp, Hr, Hst. done.
  - done.
Qed.

(** X20: the reader loop skips the frames at which [json.loads] raises
    [JSONDecodeError], and those only: each is logged and the loop goes
    on. A frame at which any other exception is raised ends the loop: the
    frames after it are never handled and the connection is reset. So the
    addon ends in the state that the commands decoded before the first
    such frame lead to, in the order received. Whatever the frames are,
    the loop sends no message to the backend, makes no HTTP call, and
    registers or unregisters no wait; the connection is reset exactly
    when a frame raises or the stream ends with an exception. *)
Theorem reader_loop_skips_malformed_frames (frames : list frame) (ending : stream_end)
    (s : TrafficInspectorAddon) :
  let r := _handle_backend_messages frames ending s in
  state_of r
  = foldl (fun s c => state_of (_process_backend_command c s)) s
          (decoded_commands (frames_read frames))
  /\ sent_messages (effects_of r) = []
  /\ http_calls (effects_of r) = []
  /\ length (List.filter is_invalid_json_log (effects_of r))
     = length (List.filter is_malformed (frames_read frames))
  /\ pending_flows (state_of r) = pending_flows s
  /\ response_pending (state_of r) = response_pending s
  /\ value_of r = match first_raised frames, ending with
                  | None, StreamExhausted => false
                  | _, _ => true
                  end
  /\ (first_raised frames = None -> frames_read frames = frames)
  /\ (forall before e after,
        frames = before ++ Raising e :: after -> first_raised before = None ->
        frames_read frames = before /\ value_of r = true).
Proof.
  intros r.
  assert (Hall : forall fs, first_raised fs = None -> frames_read fs = fs).
  { clear. induction fs as [|f fs IH]; [done|].
    destruct f; cbn; intros Hn; try discriminate; by rewrite IH. }
  assert (Hcut : forall before e after,
            first_raised before = None ->
            frames_read (before ++ Raising e :: after) = before
            /\ first_raised (before ++ Raising e :: after) = Some e).
  { clear. induction before as [|f before IH]; intros e after Hn; [done|].
    destruct f; cbn in *; try discriminate;
      destruct (IH e after Hn) as [-> ->]; done. }
  destruct (read_frames_effect frames s) as (Hv & Hst & Hs & Hh & Hl & Hp & Hr).
  assert (Hvalue : value_of r = match first_raised frames, ending with
                                | None, StreamExhausted => false
                                | _, _ => true
                                end
          /\ state_of r = state_of (read_frames frames s)
          /\ sent_messages (effects_of r) = []
          /\ http_calls (effects_of r) = []
          /\ length (List.filter is_invalid_json_log (effects_of r))
             = length (List.filter is_malformed (frames_read frames))).
  { subst r. rewrite <- Hv, <- Hl.
    unfold _handle_backend_messages, mbind, M_bind, mret, M_ret, emit, value_of,
      state_of, effects_of, sent_messages, http_calls in *.
    destruct (read_frames frames s) as [[raised s1] es]. cbn in *.
    destruct raised as [e|]; [|destruct ending]; cbn;
      rewrite ?omap_app, ?List.filter_app, ?length_app, ?Hs, ?Hh; cbn;
      rewrite ?app_nil_r, ?Nat.add_0_r; done. }
  destruct Hvalue as (Hval & Hstate & Hsent & Hcalls & Hlogs).
  split; [by rewrite Hstate|]. split; [done|]. split; [done|]. split; [done|].
  split; [by rewrite Hstate|]. split; [by rewrite Hstate|]. split; [done|].
  split; [apply Hall|].
  intros before e after -> Hn. destruct (Hcut before e after Hn) as [Hread Hfirst].
  split; [done|]. rewrite Hval, Hfirst. done.
Qed.

Lemma reader_loop_witness :
  let r := _handle_backend_messages sample_frames ConnectionClosed init in
  frames_read sample_frames
  = [Malformed "{"; Decoded (CmdSetInterceptMode (Some "intercept_all"))]
  /\ value_of r = true
  /\ intercept_mode (state_of r) = "intercept_all"
  /\ rules_enabled (state_of r) = false.
Proof.
  intros r.
  destruct (reader_loop_skips_malformed_frames sample_frames ConnectionClosed init)
    as (Hst & _ & _ & _ & _ & _ & _ & _ & Hcut).
  destruct (Hcut [Malformed "{"; Decoded (CmdSetInterceptMode (Some "intercept_all"))]
              "UnicodeDecodeError" [Decoded (CmdSetRulesEnabled (Some true))]
              eq_refl eq_refl) as [Hread Hval].
  split; [exact Hread|]. split; [exact Hval|].
  subst r. rewrite Hst, Hread. split; reflexivity.
Defined.

(** ** Link manager *)

Section LinkManager.

#[local] Arguments _is_ws_connected : simpl never.

Lemma ensure_connected_is_identity imp connect l :
  _is_ws_connected imp l = true -> ensure_ws_connection imp connect l = (l, []).
Proof. intros Hc. unfold ensure_ws_connection. by rewrite Hc. Qed.



(** X21: one [send_to_backend] call writes its message exactly when the
    link is connected after [ensure_ws_connection] and the write goes
    through, and never anything else. It attempts a connection only when
    the link is not connected, and at most once. On a connected link a
    failed write leaves the link as it was; on a link that is down a
    failed connect leaves [ws] at [None] and the message is lost, not
    queued. *)
Theorem send_writes_iff_connected (imp : bool) (connect : websocket + string)
    (write_ok : bool) (m : message) (l : link) :
  let r := send_over_link imp connect write_ok m l in
  written r.2 = (if _is_ws_connected imp r.1 && write_ok then [m] else [])
  /\ connects r.2 = (if _is_ws_connected imp l then 0 else 1)
  /\ (_is_ws_connected imp l = true -> r.1 = l)
  /\ (_is_ws_connected imp l = false -> forall e, connect = inr e ->
        r.1 = Link None (_message_handler_task l) /\ written r.2 = []).
Proof.
  unfold send_over_link, ensure_ws_connection.
  destruct (_is_ws_connected imp l) eqn:Hc; cbn.
  - rewrite !Hc. cbn. rewrite ?Hc.
    destruct write_ok; (split; [done|]); (split; [done|]); by split.
  - destruct connect as [c|e]; cbn.
    + destruct (_message_handler_task l); cbn;
        match goal with |- context [_is_ws_connected imp ?l'] =>
          destruct (_is_ws_connected imp l') eqn:Hc'
        end; cbn; rewrite ?Hc'; destruct write_ok;
        (split; [done|]); (split; [done|]); (split; [done|]); by intros _ ? [=].
    + rewrite ?Hc. (split; [done|]); (split; [done|]); (split; [done|]).
      by intros _ ? [= <-].
Qed.

(** X22: the reader task is started by [ensure_ws_connection] exactly
    when a connection was just established and no reader is running (none
    started yet, or the last one finished); a running reader is never
    started twice, and after a successful connect a reader is running. *)
Theorem reader_started_once_per_connection (imp : bool) (connect : websocket + string)
    (l : link) :
  let r := ensure_ws_connection imp connect l in
  (HandlerStarted ∈ r.2 <->
     _is_ws_connected imp l = false
     /\ (exists c, connect = inl c)
     /\ _message_handler_task l <> TaskRunning)
  /\ (Connected ∈ r.2 -> _message_handler_task r.1 = TaskRunning)
  /\ (_message_handler_task l = TaskRunning -> _message_handler_task r.1 = TaskRunning).
Proof.
  unfold ensure_ws_connection.
  destruct (_is_ws_connected imp l); cbn.
  { split; [|split]; try done. split; [by intros ?%elem_of_nil | by intros (? & _)].
    by intros ?%elem_of_nil. }
  destruct connect as [c|e]; cbn.
  - destruct (_message_handler_task l); cbn; (split; [|by split]); split;
      try (by intros; repeat split; eauto);
      try (intros _; set_solver);
      try (by intros (_ & _ & ?)).
    intros Hin. exfalso. set_solver.
  - split; [|split].
    + split; [intros Hin; set_solver | by intros (_ & [? [=]] & _)].
    + intros Hin. set_solver.
    + done.
Qed.


End LinkManager.


(** ** Commands and phases *)

(** X24: for an id that is pending in the response phase only, [forward]
    acts exactly as [forward_response] and [forward_modified] exactly as
    [forward_response_modified]: the response wait is released and the
    modification set is stored for the response hook, while the
    request-phase store is left alone. *)
Theorem request_commands_fall_through_to_response (fid : string) (e : nat)
    (mods : option modifications) (s : TrafficInspectorAddon) :
  pending_flows s !! fid = None ->
  response_pending s !! fid = Some e ->
  let s1 := state_of (_process_backend_command (CmdForwardModified (Some fid) mods) s) in
  _process_backend_command (CmdForward (Some fid)) s
  = _process_backend_command (CmdForwardResponse (Some fid)) s
  /\ _process_backend_command (CmdForwardModified (Some fid) mods) s
     = _process_backend_command (CmdForwardResponseModified (Some fid) mods) s
  /\ event_is_set e s1 = true
  /\ response_modifications s1 !! fid = Some (default no_modifications mods)
  /\ flow_modifications s1 = flow_modifications s.
Proof.
  intros Hp Hr. unfold _process_backend_command. run_monad. rewrite Hp, Hr. cbn.
  repeat split; try done.
  - unfold event_is_set. cbn. apply bool_decide_eq_true. set_solver.
  - apply lookup_insert_eq.
Qed.

Lemma request_commands_fall_through_witness :
  let flow := with_response (sample_response None) (sample_flow "f1" "example.org" None) in
  let s := set_response_pending {[ "f1" := 0 ]} init in
  _process_backend_command (CmdForward (Some "f1")) s
  = _process_backend_command (CmdForwardResponse (Some "f1")) s.
Proof.
  intros flow s.
  exact (proj1 (request_commands_fall_through_to_response "f1" 0 None s eq_refl eq_refl)).
Defined.

Section Streaming.
Context `{Environment}.

#[local] Arguments flow_to_dict : simpl never.
#[local] Arguments should_intercept : simpl never.
#[local] Arguments str_contains : simpl never.



End Streaming.

